(** * Descuentobot: the price-drop monitor of [bot.py]

    A shallow embedding of [projects/telegram-discount-bot/bot.py] and the
    properties of its pipeline: price parsing, product identity, extraction,
    drop detection, alert de-duplication and the send phase.

    Modelling conventions.
    - A Python [str] is a [string] whose characters are the code points
      U+0000..U+00FF (one [ascii] per code point).  On that range the regular
      expression class [\d] is exactly ['0'..'9'].
    - A Python [float] is an IEEE-754 binary64 value, [spec_float] with
      [prec = 53] and [emax = 1024]; arithmetic is the correctly rounded
      arithmetic of [SpecFloat].
    - A Python [dict] used as a map is a [gmap]; where the insertion order is
      observable (the de-duplication of [extract_products]) it is a list. *)

From Stdlib Require Import ZArith String Ascii List Bool Lia DecimalString.
From Stdlib Require Import Floats.SpecFloat.
From stdpp Require Import gmap strings.

Local Open Scope string_scope.
Local Open Scope Z_scope.

(** ** Python strings *)

Module PyStr.

Definition code (c : ascii) : Z := Z.of_N (N_of_ascii c).

Definition is_digit (c : ascii) : bool :=
  (48 <=? code c) && (code c <=? 57).

Definition digit_value (c : ascii) : Z := code c - 48.

(** [ch in s] for a one-character [ch]. *)
Fixpoint contains (c : ascii) (s : string) : bool :=
  match s with
  | EmptyString => false
  | String a t => Ascii.eqb a c || contains c t
  end.

(** [s.count(ch)]. *)
Fixpoint count (c : ascii) (s : string) : Z :=
  match s with
  | EmptyString => 0
  | String a t => (if Ascii.eqb a c then 1 else 0) + count c t
  end.

(** [s.rfind(ch)]: the highest index of [ch], or [-1]. *)
Fixpoint rfind_from (c : ascii) (s : string) (i last : Z) : Z :=
  match s with
  | EmptyString => last
  | String a t => rfind_from c t (i + 1) (if Ascii.eqb a c then i else last)
  end.

Definition rfind (c : ascii) (s : string) : Z := rfind_from c s 0 (-1).

(** [s.replace(old, new)] for a one-character [old]. *)
Fixpoint replace (old : ascii) (new : string) (s : string) : string :=
  match s with
  | EmptyString => EmptyString
  | String a t =>
      if Ascii.eqb a old then new ++ replace old new t
      else String a (replace old new t)
  end.

Fixpoint filter (keep : ascii -> bool) (s : string) : string :=
  match s with
  | EmptyString => EmptyString
  | String a t => if keep a then String a (filter keep t) else filter keep t
  end.

Fixpoint all (p : ascii -> bool) (s : string) : bool :=
  match s with
  | EmptyString => true
  | String a t => p a && all p t
  end.

Fixpoint map (f : ascii -> ascii) (s : string) : string :=
  match s with
  | EmptyString => EmptyString
  | String a t => String (f a) (map f t)
  end.

Definition is_empty (s : string) : bool :=
  match s with EmptyString => true | _ => false end.

(** The text before the first [c], and what follows it when [c] occurs. *)
Fixpoint partition (c : ascii) (s : string) : string * option string :=
  match s with
  | EmptyString => (EmptyString, None)
  | String a t =>
      if Ascii.eqb a c then (EmptyString, Some t)
      else let '(h, r) := partition c t in (String a h, r)
  end.

Fixpoint repeat (c : ascii) (n : nat) : string :=
  match n with
  | O => EmptyString
  | S k => String c (repeat c k)
  end.

End PyStr.

(** ** Python floats: IEEE-754 binary64 *)

Module PyFloat.

Definition prec : Z := 53.
Definition emax : Z := 1024.

Abbreviation float := spec_float.

Definition add : float -> float -> float := SFadd prec emax.
Definition sub : float -> float -> float := SFsub prec emax.
Definition mul : float -> float -> float := SFmul prec emax.
Definition div : float -> float -> float := SFdiv prec emax.

(** Python's comparison operators; every one is [False] on a NaN operand. *)
Definition lt (x y : float) : bool := SFltb x y.
Definition le (x y : float) : bool := SFleb x y.
Definition gt (x y : float) : bool := SFltb y x.
Definition ge (x y : float) : bool := SFleb y x.

Definition is_nan (x : float) : bool :=
  match x with S754_nan => true | _ => false end.

Definition is_finite (x : float) : bool :=
  match x with S754_zero _ | S754_finite _ _ _ => true | _ => false end.

Definition is_inf (x : float) : bool :=
  match x with S754_infinity _ => true | _ => false end.

(** The sign bit is clear and the value is a number: [+0.0], a positive finite
    value or [+inf]. *)
Definition nonneg (x : float) : bool :=
  match x with
  | S754_zero s | S754_infinity s | S754_finite s _ _ => negb s
  | S754_nan => false
  end.

(** The binary64 value nearest to [n / d] (ties to even) for [0 <= n], [0 < d]. *)
Definition of_ratio (n d : Z) : float :=
  match n with
  | Z0 => S754_zero false
  | _ =>
      let '(q, e, l) := SFdiv_core_binary prec emax n 0 d 0 in
      binary_round_aux prec emax false q e l
  end.

Definition of_Z (n : Z) : float := binary_normalize prec emax n 0 false.

Fixpoint digits_value (s : string) (acc : Z) : Z :=
  match s with
  | EmptyString => acc
  | String c t => digits_value t (10 * acc + PyStr.digit_value c)
  end.

(** [float(s)] on a string made of digits, commas and periods: the accepted
    texts are [digits], [digits.], [.digits] and [digits.digits]; anything
    else raises [ValueError], here [None].  The value is correctly rounded and
    an amount beyond the binary64 range is [inf]. *)
Definition of_string (s : string) : option float :=
  let '(ip, r) := PyStr.partition "." s in
  let fp := match r with Some t => t | None => EmptyString end in
  if PyStr.all PyStr.is_digit ip && PyStr.all PyStr.is_digit fp
     && negb (PyStr.is_empty (ip ++ fp))
  then Some (of_ratio (digits_value (ip ++ fp) 0)
                      (10 ^ Z.of_nat (String.length fp)))
  else None.

End PyFloat.

Import PyFloat.

(** [f] is a number whose sign bit is [sx]. *)
Definition signed (sx : bool) (f : float) : Prop :=
  match f with
  | S754_nan => False
  | S754_zero s | S754_infinity s | S754_finite s _ _ => s = sx
  end.

(** ** [parse_price] *)

Definition is_price_char (c : ascii) : bool :=
  PyStr.is_digit c || Ascii.eqb c "," || Ascii.eqb c ".".

(** [re.sub(r"[^\d,\.]", "", value)] *)
Definition clean (value : string) : string := PyStr.filter is_price_char value.

Definition disambiguate (cleaned : string) : string :=
  if PyStr.contains "," cleaned && PyStr.contains "." cleaned then
    if PyStr.rfind "." cleaned <? PyStr.rfind "," cleaned
    then PyStr.replace "," "." (PyStr.replace "." "" cleaned)
    else PyStr.replace "," "" cleaned
  else if PyStr.count "," cleaned =? 1 then PyStr.replace "," "." cleaned
  else if 1 <? PyStr.count "." cleaned then PyStr.replace "." "" cleaned
  else cleaned.

Definition parse_price (value : string) : option float :=
  let cleaned := clean value in
  if PyStr.is_empty cleaned then None
  else PyFloat.of_string (disambiguate cleaned).


(** The treatment of separators as the specification words it: the kind of
    separator occurring later in the text is the decimal point. *)
Module NormalizerSpec.

Definition is_separator (c : ascii) : bool := Ascii.eqb c "," || Ascii.eqb c ".".

(** The last separator character of the text, if it has one. *)
Fixpoint later_separator (s : string) : option ascii :=
  match s with
  | EmptyString => None
  | String a t =>
      match later_separator t with
      | Some c => Some c
      | None => if is_separator a then Some a else None
      end
  end.

Definition remove_all (c : ascii) (s : string) : string :=
  PyStr.filter (fun a => negb (Ascii.eqb a c)) s.

Definition comma_to_point (s : string) : string :=
  PyStr.map (fun a => if Ascii.eqb a "," then "."%char else a) s.

Definition separators_resolved (cleaned : string) : string :=
  match PyStr.contains "," cleaned, PyStr.contains "." cleaned with
  | true, true =>
      match later_separator cleaned with
      | Some ","%char => comma_to_point (remove_all "." cleaned)
      | _ => remove_all "," cleaned
      end
  | true, false =>
      if PyStr.count "," cleaned =? 1 then comma_to_point cleaned else cleaned
  | false, true =>
      if 1 <? PyStr.count "." cleaned then remove_all "." cleaned else cleaned
  | false, false => cleaned
  end.

Definition normalize (raw : string) : option float :=
  match PyStr.filter is_price_char raw with
  | EmptyString => None
  | cleaned => PyFloat.of_string (separators_resolved cleaned)
  end.

(** [f] is a binary64 value within half a unit in the last place of [n / d]. *)
Definition rounds (n d : Z) (f : float) : bool :=
  match f with
  | S754_zero false => n =? 0
  | S754_finite false m e =>
      if 0 <=? e then 2 * Z.abs (Zpos m * 2 ^ e * d - n) <=? 2 ^ e * d
      else 2 * Z.abs (Zpos m * d - n * 2 ^ (- e)) <=? d
  | _ => false
  end.

End NormalizerSpec.

(** The amounts named by the specification, as binary64 values. *)
Definition f1234_56 : float := S754_finite false 5429652300748554 (-42).
Definition f99 : float := S754_finite false 6966505673588736 (-46).
Definition f1_234 : float := S754_finite false 5557441940175192 (-52).
Definition f5 : float := S754_finite false 5629499534213120 (-50).

(** A price text of 310 digits: [1] followed by 309 zeros. *)
Definition huge_price_text : string := String "1" (PyStr.repeat "0" 309).

(** ** SHA-256 and the Identity Deriver *)

(** The digest of [hashlib.sha256], on 32-bit words held in [Z]. *)
Module Sha256.

Definition mask32 : Z := 4294967295.
Definition wrap (x : Z) : Z := Z.land x mask32.
Definition plus (x y : Z) : Z := wrap (x + y).
Definition rotr (n x : Z) : Z := Z.lor (Z.shiftr x n) (wrap (Z.shiftl x (32 - n))).

Definition choose (x y z : Z) : Z :=
  Z.lxor (Z.land x y) (Z.land (Z.lxor x mask32) z).
Definition majority (x y z : Z) : Z :=
  Z.lxor (Z.lxor (Z.land x y) (Z.land x z)) (Z.land y z).
Definition big_sigma0 (x : Z) : Z := Z.lxor (Z.lxor (rotr 2 x) (rotr 13 x)) (rotr 22 x).
Definition big_sigma1 (x : Z) : Z := Z.lxor (Z.lxor (rotr 6 x) (rotr 11 x)) (rotr 25 x).
Definition small_sigma0 (x : Z) : Z :=
  Z.lxor (Z.lxor (rotr 7 x) (rotr 18 x)) (Z.shiftr x 3).
Definition small_sigma1 (x : Z) : Z :=
  Z.lxor (Z.lxor (rotr 17 x) (rotr 19 x)) (Z.shiftr x 10).

(** The fractional parts of the cube roots of the first 64 primes. *)
Definition round_constants : list Z :=
  [
    1116352408; 1899447441; 3049323471; 3921009573;
    961987163; 1508970993; 2453635748; 2870763221;
    3624381080; 310598401; 607225278; 1426881987;
    1925078388; 2162078206; 2614888103; 3248222580;
    3835390401; 4022224774; 264347078; 604807628;
    770255983; 1249150122; 1555081692; 1996064986;
    2554220882; 2821834349; 2952996808; 3210313671;
    3336571891; 3584528711; 113926993; 338241895;
    666307205; 773529912; 1294757372; 1396182291;
    1695183700; 1986661051; 2177026350; 2456956037;
    2730485921; 2820302411; 3259730800; 3345764771;
    3516065817; 3600352804; 4094571909; 275423344;
    430227734; 506948616; 659060556; 883997877;
    958139571; 1322822218; 1537002063; 1747873779;
    1955562222; 2024104815; 2227730452; 2361852424;
    2428436474; 2756734187; 3204031479; 3329325298
  ]%list.

Record regs : Type := Regs { ra : Z; rb : Z; rc : Z; rd : Z; re : Z; rf : Z; rg : Z; rh : Z }.

(** The fractional parts of the square roots of the first 8 primes. *)
Definition initial : regs :=
  Regs 
    1779033703 3144134277 1013904242 2773480762
    1359893119 2600822924 528734635 1541459225.

Definition round (s : regs) (kw : Z * Z) : regs :=
  let '(k, w) := kw in
  let t1 := plus (plus (plus (plus (rh s) (big_sigma1 (re s))) (choose (re s) (rf s) (rg s))) k) w in
  let t2 := plus (big_sigma0 (ra s)) (majority (ra s) (rb s) (rc s)) in
  Regs (plus t1 t2) (ra s) (rb s) (rc s) (plus (rd s) t1) (re s) (rf s) (rg s).

(** The message schedule: [n] more words after the words of [ws]. *)
Fixpoint schedule (n : nat) (ws : list Z) : list Z :=
  match n with
  | O => ws
  | S k =>
      let t := List.length ws in
      let at_back i := List.nth (t - i) ws 0 in
      schedule k (ws ++ [plus (plus (plus (small_sigma1 (at_back 2%nat)) (at_back 7%nat))
                                    (small_sigma0 (at_back 15%nat))) (at_back 16%nat)])%list
  end.

Definition compress (s : regs) (block : list Z) : regs :=
  let t := List.fold_left round (List.combine round_constants (schedule 48 block)) s in
  Regs (plus (ra s) (ra t)) (plus (rb s) (rb t)) (plus (rc s) (rc t)) (plus (rd s) (rd t))
       (plus (re s) (re t)) (plus (rf s) (rf t)) (plus (rg s) (rg t)) (plus (rh s) (rh t)).

(** Big-endian 32-bit words of a byte sequence whose length is a multiple of 4. *)
Fixpoint words (bytes : list Z) (fuel : nat) : list Z :=
  match fuel, bytes with
  | S k, (b0 :: b1 :: b2 :: b3 :: rest)%list =>
      (Z.lor (Z.lor (Z.shiftl b0 24) (Z.shiftl b1 16)) (Z.lor (Z.shiftl b2 8) b3)
         :: words rest k)%list
  | _, _ => []%list
  end.

Definition be64 (n : Z) : list Z :=
  List.map (fun i => Z.land (Z.shiftr n (8 * i)) 255) [7; 6; 5; 4; 3; 2; 1; 0]%list.

(** The message, one [0x80] byte, zero bytes up to 56 modulo 64, and the
    length of the message in bits on 8 bytes. *)
Definition pad (msg : list Z) : list Z :=
  let len := Z.of_nat (List.length msg) in
  let zeros := Z.to_nat ((55 - len) mod 64) in
  (msg ++ [128] ++ List.repeat 0 zeros ++ be64 (8 * len))%list.

Fixpoint blocks (ws : list Z) (fuel : nat) (s : regs) : regs :=
  match fuel, ws with
  | S k, (_ :: _)%list => blocks (List.skipn 16 ws) k (compress s (List.firstn 16 ws))
  | _, _ => s
  end.

Definition digest (msg : list Z) : regs :=
  let bytes := pad msg in
  let ws := words bytes (List.length bytes) in
  blocks ws (List.length ws) initial.

Definition hex_digit (n : Z) : ascii :=
  ascii_of_N (Z.to_N (if n <? 10 then 48 + n else 87 + n)).

(** The 8 lower-case hexadecimal digits of a word. *)
Definition hex_word (x : Z) : string :=
  List.fold_right (fun i acc => String (hex_digit (Z.land (Z.shiftr x (4 * i)) 15)) acc)
                  EmptyString [7; 6; 5; 4; 3; 2; 1; 0]%list.

Definition hexdigest (msg : list Z) : string :=
  let d := digest msg in
  hex_word (ra d) ++ hex_word (rb d) ++ hex_word (rc d) ++ hex_word (rd d)
  ++ hex_word (re d) ++ hex_word (rf d) ++ hex_word (rg d) ++ hex_word (rh d).

End Sha256.

Module PyText.

(** [str.encode("utf-8")] on the code points U+0000..U+00FF. *)
Fixpoint encode_utf8 (s : string) : list Z :=
  match s with
  | EmptyString => []%list
  | String c t =>
      let n := PyStr.code c in
      if n <? 128 then (n :: encode_utf8 t)%list
      else (192 + Z.shiftr n 6 :: 128 + Z.land n 63 :: encode_utf8 t)%list
  end.

(** The characters [str.strip()] removes. *)
Definition is_space (c : ascii) : bool :=
  let n := PyStr.code c in
  ((9 <=? n) && (n <=? 13)) || ((28 <=? n) && (n <=? 32)) || (n =? 133) || (n =? 160).

Fixpoint lstrip (s : string) : string :=
  match s with
  | EmptyString => EmptyString
  | String c t => if is_space c then lstrip t else s
  end.

Fixpoint rstrip (s : string) : string :=
  match s with
  | EmptyString => EmptyString
  | String c t =>
      match rstrip t with
      | EmptyString => if is_space c then EmptyString else String c EmptyString
      | r => String c r
      end
  end.

Definition strip (s : string) : string := rstrip (lstrip s).

(** [str.lower()] on one character: the letters A-Z and the accented capitals
    U+00C0..U+00DE (the multiplication sign U+00D7 apart) move up by 32. *)
Definition lower_char (c : ascii) : ascii :=
  let n := PyStr.code c in
  if ((65 <=? n) && (n <=? 90)) || ((192 <=? n) && (n <=? 222) && negb (n =? 215))
  then ascii_of_N (Z.to_N (n + 32)) else c.

Definition lower (s : string) : string := PyStr.map lower_char s.

(** [s.split(sep)[0]] for a one-character [sep]. *)
Definition before_first (sep : ascii) (s : string) : string := fst (PyStr.partition sep s).

(** [s[:n]] for [0 <= n]. *)
Fixpoint prefix (n : nat) (s : string) : string :=
  match n, s with
  | S k, String c t => String c (prefix k t)
  | _, _ => EmptyString
  end.

End PyText.

Definition canonical (site title url : string) : string :=
  site ++ "|" ++ PyText.lower (PyText.strip title) ++ "|" ++ PyText.before_first "?" url.

Definition stable_id (site title url : string) : string :=
  PyText.prefix 24 (Sha256.hexdigest (PyText.encode_utf8 (canonical site title url))).

(** ** Fixed-point formatting of floats *)

Module PyFormat.

Definition decimal (n : Z) : string := NilZero.string_of_uint (N.to_uint (Z.to_N n)).

(** [n], [0 <= n], written with [d] digits after the point for [n / 10^d]. *)
Definition with_point (d : nat) (n : Z) : string :=
  let digits := decimal n in
  let padded := PyStr.repeat "0" (S d - String.length digits) ++ digits in
  let cut := (String.length padded - d)%nat in
  if Nat.eqb d 0 then padded
  else PyText.prefix cut padded ++ "." ++ String.substring cut d padded.

(** The integer nearest to [m * 2^e * 10^d], ties to even. *)
Definition scaled (d : nat) (m : positive) (e : Z) : Z :=
  let n := Zpos m * 10 ^ Z.of_nat d in
  if 0 <=? e then n * 2 ^ e
  else
    let den := 2 ^ (- e) in
    let q := n / den in
    let r := n mod den in
    match 2 * r ?= den with
    | Lt => q
    | Gt => q + 1
    | Eq => if Z.even q then q else q + 1
    end.

(** [format(x, ".{d}f")]. *)
Definition fixed (d : nat) (x : float) : string :=
  match x with
  | S754_nan => "nan"
  | S754_infinity s => if s then "-inf" else "inf"
  | S754_zero s => (if s then "-" else "") ++ with_point d 0
  | S754_finite s m e => (if s then "-" else "") ++ with_point d (scaled d m e)
  end.

End PyFormat.

(** ** Configuration *)

Record Config : Type := {
  DROP_THRESHOLD : float;
  REQUEST_TIMEOUT : Z;
  MAX_ITEMS_PER_SITE : Z;
  MAX_ALERTS_PER_RUN : Z
}.

Definition f0 : float := S754_zero false.
Definition f40 : float := S754_finite false 5629499534213120 (-47).
Definition f50 : float := S754_finite false 7036874417766400 (-47).
Definition f60 : float := S754_finite false 8444249301319680 (-47).
Definition f100 : float := S754_finite false 7036874417766400 (-46).

(** The defaults of the environment variables. *)
Definition default_config : Config :=
  {| DROP_THRESHOLD := f50; REQUEST_TIMEOUT := 20;
     MAX_ITEMS_PER_SITE := 60; MAX_ALERTS_PER_RUN := 20 |}.

Definition SITES : list (string * string) :=
  [ ("mercadolibre", "https://www.mercadolibre.com.pe/ofertas");
    ("falabella", "https://www.falabella.com.pe/falabella-pe/category/cat40712/Ofertas");
    ("hm", "https://pe.hm.com/sale/view-all.html");
    ("shopstar", "https://www.shopstar.pe/collections/ofertas") ]%list.

Definition SITE_PRODUCT_SELECTORS : list (string * list string) :=
  [ ("mercadolibre", ["li.ui-search-layout__item"; "div.poly-card"; "article"]);
    ("falabella", ["div.pod"; "article"; "li"]);
    ("hm", ["article.product-item"; "li.product-item"; "article"; "li"]);
    ("shopstar", ["div.grid-product"; "li.grid__item"; "article"; "li"]) ]%list.

(** The double-quote character of the attribute selectors. *)
Definition dq : string := String (ascii_of_N 34) EmptyString.

Definition TITLE_SELECTORS : list string :=
  [ ("[itemprop=" ++ dq ++ "name" ++ dq ++ "]")%string; "h1"; "h2"; "h3"; ".title"; ".product-name";
    ".poly-component__title"; ".pod-subTitle"; ".product-item__title" ]%list.

Definition PRICE_SELECTORS : list string :=
  [ ("[itemprop=" ++ dq ++ "price" ++ dq ++ "]")%string;
    ("[data-testid=" ++ dq ++ "price-part" ++ dq ++ "]")%string; ".andes-money-amount__fraction";
    ".price"; ".product-price"; ".sales"; ".money"; ".price__current"; ".pod-prices" ]%list.

Definition LINK_SELECTORS : list string :=
  [ "a[href][title]"; "a[href][aria-label]"; ("a[href*=" ++ dq ++ "/p/" ++ dq ++ "]")%string;
    ("a[href*=" ++ dq ++ "/producto" ++ dq ++ "]")%string;
    "a[href]" ]%list.

Record Product : Type := {
  site : string;
  product_id : string;
  title : string;
  price_pen : float;
  url : string
}.

(** ** The Product Extractor *)

(** What [extract_products] uses of BeautifulSoup and of [urllib]: the tags
    selected in a parsed document, the identity [id(block)] of a tag, the first
    descendant matching a selector, its text, its [href] attribute, and
    [urljoin]. *)
Class Markup : Type := {
  Tag : Type;
  tag_id : Tag -> Z;
  soup_select : string -> string -> list Tag;
  select_one : Tag -> string -> option Tag;
  get_text : Tag -> string;
  get_href : Tag -> option string;
  urljoin : string -> string -> string
}.

(** [dict.get(key, default)] on a table written as a list. *)
Fixpoint table_get {A} (key : string) (table : list (string * A)) (default : A) : A :=
  match table with
  | []%list => default
  | ((k, v) :: rest)%list => if String.eqb k key then v else table_get key rest default
  end.

(** [dict.setdefault(key, value)] on an insertion-ordered dictionary. *)
Fixpoint setdefault {A} (key : string) (value : A) (d : list (string * A)) : list (string * A) :=
  match d with
  | []%list => [(key, value)]%list
  | ((k, v) :: rest)%list =>
      if String.eqb k key then d else ((k, v) :: setdefault key value rest)%list
  end.

Section Extractor.

Context {M : Markup}.
Variable cfg : Config.

Fixpoint _pick_first_text (block : Tag) (selectors : list string) : string :=
  match selectors with
  | []%list => ""
  | (selector :: rest)%list =>
      match select_one block selector with
      | Some node =>
          let text := get_text node in
          if PyStr.is_empty text then _pick_first_text block rest else text
      | None => _pick_first_text block rest
      end
  end.

Fixpoint _pick_first_href (block : Tag) (selectors : list string) : string :=
  match selectors with
  | []%list => ""
  | (selector :: rest)%list =>
      match select_one block selector with
      | Some node =>
          match get_href node with
          | Some h => if PyStr.is_empty h then _pick_first_href block rest
                      else PyText.strip h
          | None => _pick_first_href block rest
          end
      | None => _pick_first_href block rest
      end
  end.

(** The body of the inner loop after the block is marked as seen: the record
    appended for [block], or [None] where the source says [continue]. *)
Definition candidate (site base_url : string) (block : Tag) : option Product :=
  let title := _pick_first_text block TITLE_SELECTORS in
  let raw_price := _pick_first_text block PRICE_SELECTORS in
  let href := _pick_first_href block LINK_SELECTORS in
  if PyStr.is_empty title || PyStr.is_empty raw_price || PyStr.is_empty href then None
  else
    match parse_price raw_price with
    | None => None
    | Some price =>
        if PyFloat.le price f0 then None
        else
          let url := urljoin base_url href in
          Some {| site := site; product_id := stable_id site title url;
                  title := title; price_pen := price; url := url |}
    end.

Definition full (products : list Product) : bool :=
  MAX_ITEMS_PER_SITE cfg <=? Z.of_nat (List.length products).

(** The inner loop: the blocks of one selector, with the set of seen block
    identities and the list of products so far. *)
Fixpoint scan_blocks (site base_url : string) (blocks : list Tag)
    (seen_blocks : gset Z) (products : list Product) : gset Z * list Product :=
  match blocks with
  | []%list => (seen_blocks, products)
  | (block :: rest)%list =>
      let block_id := tag_id block in
      if decide (block_id ∈ seen_blocks)
      then scan_blocks site base_url rest seen_blocks products
      else
        let seen_blocks := {[ block_id ]} ∪ seen_blocks in
        match candidate site base_url block with
        | None => scan_blocks site base_url rest seen_blocks products
        | Some p =>
            let products := (products ++ [p])%list in
            if full products then (seen_blocks, products)
            else scan_blocks site base_url rest seen_blocks products
        end
  end.

(** The outer loop over the selectors. *)
Fixpoint scan_selectors (site html base_url : string) (selectors : list string)
    (seen_blocks : gset Z) (products : list Product) : list Product :=
  match selectors with
  | []%list => products
  | (selector :: rest)%list =>
      let '(seen_blocks, products) :=
        scan_blocks site base_url (soup_select html selector) seen_blocks products in
      if full products then products
      else scan_selectors site html base_url rest seen_blocks products
  end.

Definition dedupe (products : list Product) : list Product :=
  List.map snd
    (List.fold_left (fun deduped p => setdefault (product_id p) p deduped) products []%list).

Definition extract_products (site html base_url : string) : list Product :=
  let selectors := table_get site SITE_PRODUCT_SELECTORS ["article"; "li"; "div"]%list in
  dedupe (scan_selectors site html base_url selectors ∅ []%list).

End Extractor.

(** The collapse of duplicate identifiers as the specification words it: a
    record is kept when no earlier record has its identifier. *)
Fixpoint first_of_each_from (earlier : gset string) (products : list Product) : list Product :=
  match products with
  | []%list => []%list
  | (p :: rest)%list =>
      if decide (product_id p ∈ earlier) then first_of_each_from earlier rest
      else (p :: first_of_each_from ({[ product_id p ]} ∪ earlier) rest)%list
  end.

Definition first_of_each (products : list Product) : list Product :=
  first_of_each_from ∅ products.

(** A record as the extractor may create it: of the site, with a title, a
    positive price, an URL resolved from a link of the block, and the
    identifier derived from them. *)
Definition well_formed {M : Markup} (site0 base_url : string) (p : Product) : Prop :=
  site p = site0
  /\ PyStr.is_empty (title p) = false
  /\ PyFloat.gt (price_pen p) f0 = true
  /\ (exists href, PyStr.is_empty href = false /\ url p = urljoin base_url href)
  /\ product_id p = stable_id site0 (title p) (url p).

(** A small document model: a page is a list of blocks, each holding a
    heading, a price text and a link; [article] selects the blocks, [h2],
    [.price] and [a[href]] select their parts. *)
Module Toy.

Inductive tag : Type :=
  | Block (id : Z) (heading price link : string)
  | Leaf (text : string) (href : option string).

Definition page (html : string) : list tag :=
  if String.eqb html "listing" then
    [ Block 1 "Nice Shoes" "S/ 1,234.56" "/p/1?utm=foo";
      Block 2 "nice shoes" "S/ 99" "/p/1?utm=bar";
      Block 3 "" "S/ 5" "/p/3";
      Block 4 "Hat" "abc" "/p/4";
      Block 5 "Hat" "0" "/p/5";
      Block 6 "Hat" "12" "/p/6" ]%list
  else []%list.

#[local] Instance markup : Markup := {|
  Tag := tag;
  tag_id := fun t => match t with Block i _ _ _ => i | Leaf _ _ => -1 end;
  soup_select := fun html selector =>
    if String.eqb selector "article" then page html else []%list;
  select_one := fun t selector =>
    match t with
    | Block _ heading price link =>
        if String.eqb selector "h2" then Some (Leaf heading None)
        else if String.eqb selector ".price" then Some (Leaf price None)
        else if String.eqb selector "a[href]" then Some (Leaf "" (Some link))
        else None
    | Leaf _ _ => None
    end;
  get_text := fun t => match t with Leaf text _ => text | Block _ _ _ _ => "" end;
  get_href := fun t => match t with Leaf _ href => href | Block _ _ _ _ => None end;
  urljoin := fun base href => (base ++ href)%string
|}.

Definition config (cap : Z) : Config :=
  {| DROP_THRESHOLD := f50; REQUEST_TIMEOUT := 20; MAX_ITEMS_PER_SITE := cap;
     MAX_ALERTS_PER_RUN := 20 |}.

Definition listing (cap : Z) : list Product :=
  extract_products (config cap) "siteA" "listing" "https://x".

End Toy.

(** ** The persisted state *)

Record Tracked : Type := {
  tracked_title : string;
  tracked_site : string;
  tracked_url : string;
  last_price : float;
  updated_at : Z
}.

Record State : Type := {
  products : gmap string Tracked;
  alerts_sent : gmap string Z;
  last_run : option Z
}.

(** What [load_state] returns when there is no state file. *)
Definition empty_state : State :=
  {| products := ∅; alerts_sent := ∅; last_run := None |}.

(** ** Drop detection and alert de-duplication *)

(** The character U+1F525 that opens an alert, as its UTF-8 bytes; it is the
    one character outside U+0000..U+00FF the program writes, and it is only
    ever concatenated. *)
Definition fire : string :=
  String (ascii_of_N 240) (String (ascii_of_N 159) (String (ascii_of_N 148)
    (String (ascii_of_N 165) EmptyString))).

Definition newline : string := String (ascii_of_N 10) EmptyString.

(** The decision of lines 236-245: the old price and the drop percentage when
    the observation is a drop of at least the threshold, [None] where the
    source says [continue]. *)
Definition detect (cfg : Config) (prev : option Tracked) (product : Product)
    : option (float * float) :=
  match prev with
  | None => None
  | Some entry =>
      let old_price := last_price entry in
      if PyFloat.le old_price f0 || PyFloat.ge (price_pen product) old_price then None
      else
        let drop_pct :=
          PyFloat.mul (PyFloat.div (PyFloat.sub old_price (price_pen product)) old_price) f100 in
        if PyFloat.lt drop_pct (DROP_THRESHOLD cfg) then None
        else Some (old_price, drop_pct)
  end.

Definition alert_key (product : Product) (old_price : float) : string :=
  (product_id product ++ ":" ++ PyFormat.fixed 2 old_price ++ "->"
   ++ PyFormat.fixed 2 (price_pen product))%string.

Definition alert_text (site : string) (product : Product) (old_price drop_pct : float)
    : string :=
  (fire ++ " DESCUENTO FUERTE (" ++ PyFormat.fixed 1 drop_pct ++ "%)" ++ newline
   ++ "Tienda: " ++ site ++ newline
   ++ "Producto: " ++ title product ++ newline
   ++ "Antes: S/ " ++ PyFormat.fixed 2 old_price ++ newline
   ++ "Ahora: S/ " ++ PyFormat.fixed 2 (price_pen product) ++ newline
   ++ "Link: " ++ url product)%string.

(** The dictionaries and the list a run works on. *)
Record Memory : Type := {
  known_products : gmap string Tracked;
  ledger : gmap string Z;
  alerts : list string
}.

Definition tracked_entry (site : string) (now : Z) (product : Product) : Tracked :=
  {| tracked_title := title product; tracked_site := site; tracked_url := url product;
     last_price := price_pen product; updated_at := now |}.

(** The body of the loop over the products of one site (lines 227-260). *)
Definition observe (cfg : Config) (site : string) (now : Z) (mem : Memory)
    (product : Product) : Memory :=
  let prev := known_products mem !! product_id product in
  let known := <[ product_id product := tracked_entry site now product ]> (known_products mem) in
  match detect cfg prev product with
  | None => {| known_products := known; ledger := ledger mem; alerts := alerts mem |}
  | Some (old_price, drop_pct) =>
      let key := alert_key product old_price in
      match ledger mem !! key with
      | Some _ => {| known_products := known; ledger := ledger mem; alerts := alerts mem |}
      | None =>
          {| known_products := known;
             ledger := <[ key := now ]> (ledger mem);
             alerts := (alerts mem ++ [alert_text site product old_price drop_pct])%list |}
      end
  end.

(** ** The Run Orchestrator *)

(** What a run meets outside the program: the credentials of the environment,
    the products extracted from the page of a site ([None] when the request
    raises), the clock read while a site is processed and at the end of the
    run, and whether the [n]-th call of [send_telegram_message] succeeds. *)
Record World : Type := {
  telegram_token : option string;
  telegram_chat_id : option string;
  scrape : string -> string -> option (list Product);
  time_at : string -> Z;
  end_time : Z;
  deliver : nat -> string -> bool
}.

Inductive LogEntry : Type :=
  | LogAnalysing (url : string)
  | LogFetchFailed (site : string)
  | LogDetected (site : string) (count : nat)
  | LogAlertSent
  | LogFinished (detected sent : Z).

Inductive Outcome : Type :=
  | Completed
  | RaisedRuntimeError
  | RaisedBySend.

(** What a run did: how it ended, the messages handed to
    [send_telegram_message] in order, the state written by [save_state] if it
    was reached, and the log. *)
Record Run : Type := {
  outcome : Outcome;
  attempted : list string;
  saved : option State;
  log : list LogEntry
}.

(** A credential that is unset or empty. *)
Definition missing (v : option string) : bool :=
  match v with
  | None => true
  | Some s => PyStr.is_empty s
  end.

(** [l[:n]]. *)
Definition slice_to {A} (n : Z) (l : list A) : list A :=
  if 0 <=? n then List.firstn (Z.to_nat n) l
  else List.firstn (List.length l - Z.to_nat (- n)) l.

(** One iteration of the loop over [SITES]. *)
Definition visit (cfg : Config) (w : World) (acc : Memory * list LogEntry)
    (entry : string * string) : Memory * list LogEntry :=
  let '(mem, lg) := acc in
  let '(site, url) := entry in
  match scrape w site url with
  | None => (mem, (lg ++ [LogAnalysing url; LogFetchFailed site])%list)
  | Some found =>
      (List.fold_left (observe cfg site (time_at w site)) found mem,
       (lg ++ [LogAnalysing url; LogDetected site (List.length found)])%list)
  end.

(** The send loop: the exception of a failed delivery leaves it. *)
Fixpoint send_all (w : World) (n : nat) (pending : list string)
    (sent : list string) (lg : list LogEntry) : bool * list string * list LogEntry :=
  match pending with
  | []%list => (true, sent, lg)
  | (alert :: rest)%list =>
      if deliver w n alert
      then send_all w (S n) rest (sent ++ [alert])%list (lg ++ [LogAlertSent])%list
      else (false, (sent ++ [alert])%list, lg)
  end.

Definition monitor (cfg : Config) (w : World) (state : State) : Run :=
  if missing (telegram_token w) || missing (telegram_chat_id w) then
    {| outcome := RaisedRuntimeError; attempted := []; saved := None; log := [] |}
  else
    let '(mem, lg) :=
      List.fold_left (visit cfg w) SITES
        ({| known_products := products state; ledger := alerts_sent state; alerts := [] |},
         []%list) in
    let '(ok, sent, lg) :=
      send_all w 0 (slice_to (MAX_ALERTS_PER_RUN cfg) (alerts mem)) []%list lg in
    if ok then
      {| outcome := Completed;
         attempted := sent;
         saved := Some {| products := known_products mem; alerts_sent := ledger mem;
                          last_run := Some (end_time w) |};
         log := (lg ++ [LogFinished (Z.of_nat (List.length (alerts mem)))
                                    (Z.min (Z.of_nat (List.length (alerts mem)))
                                           (MAX_ALERTS_PER_RUN cfg))])%list |}
    else
      {| outcome := RaisedBySend; attempted := sent; saved := None; log := lg |}.

(** The state on disk after a run: what [save_state] wrote, or the state the
    run started from when it was not reached. *)
Definition persisted (state : State) (r : Run) : State :=
  match saved r with
  | Some s => s
  | None => state
  end.

(** The orchestrator on top of the extractor: the page of a site is fetched
    ([None] when the request raises) and handed to [extract_products]. *)
Definition scrape_pages {M : Markup} (cfg : Config) (fetch : string -> option string)
    (site url : string) : option (list Product) :=
  match fetch url with
  | None => None
  | Some html => Some (extract_products cfg site html url)
  end.

(** The memory a run has built when it reaches the send phase. *)
Definition scanned (cfg : Config) (w : World) (state : State) : Memory :=
  fst (List.fold_left (visit cfg w) SITES
         ({| known_products := products state; ledger := alerts_sent state; alerts := [] |},
          []%list)).

(** [m2] keeps every ledger entry of [m1] unchanged and every tracked
    identifier of [m1]. *)
Definition keeps (ledger1 ledger2 : gmap string Z) (known1 known2 : gmap string Tracked) : Prop :=
  (forall k v, ledger1 !! k = Some v -> ledger2 !! k = Some v)
  /\ (forall k, is_Some (known1 !! k) -> is_Some (known2 !! k)).

Definition grows (m1 m2 : Memory) : Prop :=
  keeps (ledger m1) (ledger m2) (known_products m1) (known_products m2).

(** The Drop Detector as the glossary words it. *)
Module DetectorSpec.

(** (old price - new price) / old price x 100 *)
Definition drop_percentage (old_price new_price : float) : float :=
  PyFloat.mul (PyFloat.div (PyFloat.sub old_price new_price) old_price) f100.

(** The prior price is positive, the new price is below it and the drop is at
    least the threshold. *)
Definition alert_worthy (threshold old_price new_price : float) : bool :=
  PyFloat.gt old_price f0 && PyFloat.lt new_price old_price
  && PyFloat.ge (drop_percentage old_price new_price) threshold.

End DetectorSpec.

(** ** Scenarios *)

Module Scenario.

Definition shop : string := "mercadolibre".

Definition item (name : string) (price : float) : Product :=
  {| site := shop; product_id := name; title := name; price_pen := price;
     url := ("https://x/p/" ++ name)%string |}.

Definition tracked_at (price : float) (since : Z) (p : Product) : Tracked :=
  tracked_entry shop since {| site := site p; product_id := product_id p; title := title p;
                              price_pen := price; url := url p |}.

(** A state that tracks every product of [found] at [price]. *)
Definition tracking (price : float) (found : list Product) : State :=
  {| products := list_to_map (List.map (fun p => (product_id p, tracked_at price 500 p)) found);
     alerts_sent := ∅;
     last_run := Some 500 |}.

(** A run at time [now] in which the first site shows [found], the other sites
    cannot be fetched, and [ok] tells which calls of the sender succeed. *)
Definition world (now : Z) (found : list Product) (ok : nat -> bool) : World :=
  {| telegram_token := Some "token";
     telegram_chat_id := Some "chat";
     scrape := fun site _ => if String.eqb site shop then Some found else None;
     time_at := fun _ => now;
     end_time := now + 1;
     deliver := fun n _ => ok n |}.

Definition always (n : nat) : bool := true.
Definition all_but (k n : nat) : bool := negb (Nat.eqb n k).

(** [count] products [p0], [p1], ... at [price]. *)
Definition batch (count : nat) (price : float) : list Product :=
  List.map (fun i => item ("p" ++ PyFormat.decimal (Z.of_nat i)) price) (List.seq 0 count).

Definition with_cap (cap : Z) : Config :=
  {| DROP_THRESHOLD := f50; REQUEST_TIMEOUT := 20; MAX_ITEMS_PER_SITE := 60;
     MAX_ALERTS_PER_RUN := cap |}.

End Scenario.

Module Runs.

Import Scenario.

(** Two tracked products drop from 100.00 to 40.00 and the first delivery
    fails. *)
Definition pair : list Product := [item "x" f40; item "y" f40]%list.
Definition first_send_fails : Run :=
  monitor default_config (world 1000 pair (all_but 0)) (tracking f100 pair).

(** Twenty-five tracked products drop from 100.00 to 40.00 under a cap of 20,
    with a sender that works and with one whose third delivery fails. *)
Definition many : list Product := batch 25 f40.
Definition capped : Run :=
  monitor (with_cap 20) (world 1000 many always) (tracking f100 many).
Definition capped_third_send_fails : Run :=
  monitor (with_cap 20) (world 1000 many (all_but 2)) (tracking f100 many).

(** Three runs in a row on one product: 100.00 -> 40.00, back to 100.00, and
    40.00 again. *)
Definition state0 : State := tracking f100 [item "x" f100]%list.
Definition run1 : Run := monitor default_config (world 1000 [item "x" f40]%list always) state0.
Definition state1 : State := persisted state0 run1.
Definition run2 : Run := monitor default_config (world 2000 [item "x" f100]%list always) state1.
Definition state2 : State := persisted state1 run2.
Definition run3 : Run := monitor default_config (world 3000 [item "x" f40]%list always) state2.
Definition state3 : State := persisted state2 run3.

End Runs.

(** ** Further vocabulary for the extractor *)

(** The text a selector contributes for a block: the text of the node it
    selects, empty when it selects none. *)
Definition text_under {M : Markup} (block : Tag) (selector : string) : string :=
  match select_one block selector with
  | Some node => get_text node
  | None => ""
  end.

(** The [href] a selector contributes for a block: the attribute of the node
    it selects when that attribute is present and not empty. *)
Definition href_under {M : Markup} (block : Tag) (selector : string) : option string :=
  match select_one block selector with
  | Some node =>
      match get_href node with
      | Some h => if PyStr.is_empty h then None else Some h
      | None => None
      end
  | None => None
  end.

(** ** Further vocabulary for price texts *)

(** The digits of a text, in order. *)
Definition digits_of (s : string) : string := PyStr.filter PyStr.is_digit s.

Definition has_digit (s : string) : bool := negb (PyStr.is_empty (digits_of s)).

(** What follows the first comma or period of a text. *)
Fixpoint after_separator (s : string) : string :=
  match s with
  | EmptyString => EmptyString
  | String c t => if NormalizerSpec.is_separator c then t else after_separator t
  end.

(** ** Further vocabulary for identifiers and ledger keys *)

(** A lower-case hexadecimal digit. *)
Definition is_hex (c : ascii) : bool :=
  PyStr.is_digit c || ((97 <=? PyStr.code c) && (PyStr.code c <=? 102)).

(** ** Further vocabulary for runs *)

(** The sites of a list whose page could be fetched, with their products. *)
Definition answered_of (w : World) (sites : list (string * string))
    : list (string * list Product) :=
  List.flat_map
    (fun entry => match scrape w (fst entry) (snd entry) with
                  | Some found => [(fst entry, found)]
                  | None => []
                  end)%list
    sites.

(** The observations of a run, in order: the site, the time read for the site
    and the product. *)
Definition observations_of (w : World) (sites : list (string * string))
    : list (string * Z * Product) :=
  List.flat_map
    (fun answer => List.map (fun p => (fst answer, time_at w (fst answer), p)) (snd answer))
    (answered_of w sites).

Definition observations (w : World) : list (string * Z * Product) := observations_of w SITES.

Definition observed (w : World) : list Product := List.map snd (observations w).

Definition observe_tagged (cfg : Config) (mem : Memory) (o : string * Z * Product) : Memory :=
  observe cfg (fst (fst o)) (snd (fst o)) mem (snd o).

(** The memory a run starts from. *)
Definition initial_memory (state : State) : Memory :=
  {| known_products := products state; ledger := alerts_sent state; alerts := [] |}.

(** The known products record the price of every product of a list. *)
Definition tracks (known : gmap string Tracked) (found : list Product) : Prop :=
  forall p, In p found ->
    exists entry, known !! product_id p = Some entry /\ last_price entry = price_pen p.

(** ** Further vocabulary for the amount of a price text *)

(** The integer written by the digits of a text. *)
Definition amount_digits (raw : string) : Z := digits_value (digits_of raw) 0.

(** The number of digits [parse_price] reads after the decimal point. *)
Definition decimals (raw : string) : nat :=
  String.length
    match snd (PyStr.partition "." (disambiguate (clean raw))) with
    | Some t => t
    | None => EmptyString
    end.

(** ** A failed delivery followed by another run *)

Module Resend.

Import Scenario.

(** One tracked product drops from 100.00 to 40.00; the delivery of its alert
    fails in the first run, and the second run starts from what the first one
    left on disk and sees the same price again. *)
Definition single : list Product := [item "x" f40]%list.
Definition failing_world : World := world 1000 single (all_but 0).
Definition failed_run : Run := monitor default_config failing_world Runs.state0.
Definition state_after : State := persisted Runs.state0 failed_run.
Definition next_world : World := world 2000 single always.
Definition next_run : Run := monitor default_config next_world state_after.

End Resend.

(** ** Properties of the string operations *)

Section StringFacts.

Lemma filter_idem keep s : PyStr.filter keep (PyStr.filter keep s) = PyStr.filter keep s.
Proof.
  induction s as [|a t IH]; simpl; [reflexivity|].
  destruct (keep a) eqn:Ha; simpl; [rewrite Ha, IH|]; auto.
Qed.

Lemma filter_app keep s t :
  PyStr.filter keep (s ++ t) = PyStr.filter keep s ++ PyStr.filter keep t.
Proof.
  induction s as [|a s IH]; simpl; [reflexivity|].
  destruct (keep a); simpl; rewrite IH; reflexivity.
Qed.

Lemma filter_all keep s : PyStr.all keep (PyStr.filter keep s) = true.
Proof.
  induction s as [|a t IH]; simpl; [reflexivity|].
  destruct (keep a) eqn:Ha; simpl; [rewrite Ha|]; auto.
Qed.

Lemma all_app p s t : PyStr.all p (s ++ t) = PyStr.all p s && PyStr.all p t.
Proof.
  induction s as [|a s IH]; simpl; [reflexivity|].
  rewrite IH, andb_assoc. reflexivity.
Qed.

Lemma replace_empty_is_remove c s :
  PyStr.replace c "" s = NormalizerSpec.remove_all c s.
Proof.
  unfold NormalizerSpec.remove_all.
  induction s as [|a t IH]; simpl; [reflexivity|].
  destruct (Ascii.eqb a c); simpl; rewrite IH; reflexivity.
Qed.

Lemma replace_comma_is_map s :
  PyStr.replace "," "." s = NormalizerSpec.comma_to_point s.
Proof.
  unfold NormalizerSpec.comma_to_point.
  induction s as [|a t IH]; simpl; [reflexivity|].
  destruct (Ascii.eqb a ","); simpl; rewrite IH; reflexivity.
Qed.

Lemma is_empty_spec s : PyStr.is_empty s = true <-> s = EmptyString.
Proof. destruct s; simpl; split; congruence. Qed.

(** [rfind] against the last separator: scanning from index [i] with both
    running results below [i], the later separator is the one whose last index
    is greater. *)
Lemma rfind_from_later s : forall i lc lp,
  lc < i -> lp < i ->
  match NormalizerSpec.later_separator s with
  | None => PyStr.rfind_from "," s i lc = lc /\ PyStr.rfind_from "." s i lp = lp
  | Some c =>
      if Ascii.eqb c ","
      then PyStr.rfind_from "." s i lp < PyStr.rfind_from "," s i lc
           /\ i <= PyStr.rfind_from "," s i lc
      else c = "."%char
           /\ PyStr.rfind_from "," s i lc < PyStr.rfind_from "." s i lp
           /\ i <= PyStr.rfind_from "." s i lp
  end.
Proof.
  induction s as [|a t IH]; intros i lc lp Hc Hp; simpl; [auto|].
  set (lc' := if Ascii.eqb a "," then i else lc).
  set (lp' := if Ascii.eqb a "." then i else lp).
  assert (Hc' : lc' < i + 1) by (subst lc'; destruct (Ascii.eqb a ","); lia).
  assert (Hp' : lp' < i + 1) by (subst lp'; destruct (Ascii.eqb a "."); lia).
  specialize (IH (i + 1) lc' lp' Hc' Hp').
  destruct (NormalizerSpec.later_separator t) as [c|].
  - clearbody lc' lp'. destruct (Ascii.eqb c ",").
    + destruct IH as [H1 H2]. split; lia.
    + destruct IH as (H0 & H1 & H2). split; [exact H0 | split; lia].
  - destruct IH as [-> ->]. unfold NormalizerSpec.is_separator. subst lc' lp'.
    destruct (Ascii.eqb a ",") eqn:Ea; simpl.
    + rewrite Ea. apply Ascii.eqb_eq in Ea. subst a. simpl. lia.
    + destruct (Ascii.eqb a ".") eqn:Eb; [|auto].
      rewrite Ea. apply Ascii.eqb_eq in Eb. subst a. split; [reflexivity|lia].
Qed.

Lemma rfind_later_comma s :
  (PyStr.rfind "." s <? PyStr.rfind "," s) =
  match NormalizerSpec.later_separator s with
  | Some ","%char => true
  | _ => false
  end.
Proof.
  unfold PyStr.rfind.
  pose proof (rfind_from_later s 0 (-1) (-1) ltac:(lia) ltac:(lia)) as H.
  destruct (NormalizerSpec.later_separator s) as [c|].
  - destruct (Ascii.eqb c ",") eqn:Ec.
    + apply Ascii.eqb_eq in Ec. subst c. apply Z.ltb_lt. tauto.
    + destruct H as (-> & H & _). apply Z.ltb_ge. lia.
  - destruct H as [-> ->]. reflexivity.
Qed.

Lemma count_nonneg c s : 0 <= PyStr.count c s.
Proof. induction s as [|a t IH]; simpl; [lia|]. destruct (Ascii.eqb a c); lia. Qed.

Lemma count_contains c s : PyStr.contains c s = false -> PyStr.count c s = 0.
Proof.
  induction s as [|a t IH]; simpl; [reflexivity|].
  destruct (Ascii.eqb a c); simpl; [discriminate|auto].
Qed.

End StringFacts.

(** The disambiguation of the code is the one the specification describes. *)
Lemma disambiguate_spec cleaned :
  disambiguate cleaned = NormalizerSpec.separators_resolved cleaned.
Proof.
  unfold disambiguate, NormalizerSpec.separators_resolved.
  destruct (PyStr.contains "," cleaned) eqn:Hc, (PyStr.contains "." cleaned) eqn:Hp; simpl.
  - rewrite rfind_later_comma.
    destruct (NormalizerSpec.later_separator cleaned) as [c|].
    + destruct c as [[] [] [] [] [] [] [] []];
        rewrite ?replace_comma_is_map, ?replace_empty_is_remove; reflexivity.
    + rewrite replace_empty_is_remove; reflexivity.
  - rewrite (count_contains _ _ Hp). simpl.
    destruct (PyStr.count "," cleaned =? 1); [apply replace_comma_is_map|reflexivity].
  - rewrite (count_contains _ _ Hc). simpl.
    destruct (1 <? PyStr.count "." cleaned); [apply replace_empty_is_remove|reflexivity].
  - rewrite (count_contains _ _ Hc), (count_contains _ _ Hp). reflexivity.
Qed.

Lemma parse_price_normalize raw : parse_price raw = NormalizerSpec.normalize raw.
Proof.
  unfold parse_price, NormalizerSpec.normalize, clean.
  destruct (PyStr.filter is_price_char raw) eqn:E; simpl; [reflexivity|].
  rewrite disambiguate_spec. reflexivity.
Qed.

(** ** Properties of binary64 rounding *)

Section Rounding.

Variables p e : Z.

Lemma shr_1_nonneg mrs : 0 <= shr_m mrs -> 0 <= shr_m (shr_1 mrs).
Proof.
  destruct mrs as [m r s]; simpl.
  destruct m as [|[q|q|]|[q|q|]]; simpl; lia.
Qed.

Lemma iter_pos_invariant {A} (f : A -> A) (P : A -> Prop) :
  (forall x, P x -> P (f x)) -> forall n x, P x -> P (SpecFloat.iter_pos f n x).
Proof.
  intros Hf. induction n as [n IH|n IH|]; intros x Hx; simpl; auto.
Qed.

Lemma shr_nonneg mrs ex n : 0 <= shr_m mrs -> 0 <= shr_m (fst (shr mrs ex n)).
Proof.
  intros H. destruct n; simpl; auto.
  apply (iter_pos_invariant shr_1 (fun x => 0 <= shr_m x)); auto using shr_1_nonneg.
Qed.

Lemma shr_m_of_loc m l : shr_m (shr_record_of_loc m l) = m.
Proof. destruct l as [|[]]; reflexivity. Qed.

Lemma shr_fexp_nonneg m ex l :
  0 <= m -> 0 <= shr_m (fst (shr_fexp p e m ex l)).
Proof.
  intros H. unfold shr_fexp. apply shr_nonneg. rewrite shr_m_of_loc. exact H.
Qed.

Lemma round_nearest_even_nonneg m l : 0 <= m -> 0 <= round_nearest_even m l.
Proof.
  intros H. destruct l as [|[]]; simpl; try lia.
  destruct (Z.even m); lia.
Qed.

(** Rounding a non-negative integer mantissa gives a number of the requested
    sign: a zero, a finite value or an infinity, never a NaN. *)
Lemma binary_round_aux_signed sx mx ex lx :
  0 <= mx -> signed sx (binary_round_aux p e sx mx ex lx).
Proof.
  intros H. unfold binary_round_aux.
  pose proof (shr_fexp_nonneg mx ex lx H) as H1.
  destruct (shr_fexp p e mx ex lx) as [mrs' e']. simpl in H1.
  pose proof (shr_fexp_nonneg _ e' loc_Exact
                (round_nearest_even_nonneg _ (loc_of_shr_record mrs') H1)) as H2.
  destruct (shr_fexp p e (round_nearest_even (shr_m mrs') (loc_of_shr_record mrs'))
              e' loc_Exact) as [mrs'' e'']. simpl in H2.
  destruct (shr_m mrs'') as [|m|m]; simpl; [reflexivity| |lia].
  destruct (e'' <=? e - p); reflexivity.
Qed.

Lemma binary_round_signed sx mx ex : signed sx (binary_round p e sx mx ex).
Proof.
  unfold binary_round.
  destruct (shl_align mx ex (fexp p e (Z.pos (digits2_pos mx) + ex))) as [mz ez].
  apply binary_round_aux_signed. lia.
Qed.

Lemma div_core_nonneg m1 e1 m2 e2 :
  0 <= m1 -> 0 < m2 ->
  0 <= fst (fst (SFdiv_core_binary p e m1 e1 m2 e2)).
Proof.
  intros H1 H2. unfold SFdiv_core_binary.
  set (s := e1 - e2 - _).
  set (m' := match s with Z0 => m1 | Zpos _ => Z.shiftl m1 s | Zneg _ => 0 end).
  assert (Hm : 0 <= m').
  { subst m'. destruct s; [exact H1| |lia]. apply Z.shiftl_nonneg. exact H1. }
  pose proof (Z.div_pos m' m2 Hm H2) as Hq. unfold Z.div in Hq.
  destruct (Z.div_eucl m' m2) as [q r]. exact Hq.
Qed.

End Rounding.

Lemma nonneg_signed f : nonneg f = true <-> signed false f.
Proof.
  destruct f as [s|s| |s m ex]; simpl; try (destruct s; simpl; split; congruence).
  split; [discriminate|tauto].
Qed.

Lemma of_ratio_nonneg n d : 0 <= n -> 0 < d -> nonneg (of_ratio n d) = true.
Proof.
  intros Hn Hd. apply nonneg_signed. unfold of_ratio.
  destruct n as [|n|n]; [reflexivity| |lia].
  pose proof (div_core_nonneg prec emax (Z.pos n) 0 d 0 Hn Hd) as Hq.
  destruct (SFdiv_core_binary prec emax (Z.pos n) 0 d 0) as [[q ex] l].
  apply binary_round_aux_signed. exact Hq.
Qed.

Lemma digits_value_nonneg s : forall acc,
  PyStr.all PyStr.is_digit s = true -> 0 <= acc -> 0 <= digits_value s acc.
Proof.
  induction s as [|c t IH]; intros acc Hall Hacc; simpl in *; [exact Hacc|].
  apply andb_true_iff in Hall as [Hc Ht]. apply IH; [exact Ht|].
  unfold PyStr.is_digit, PyStr.digit_value in *. lia.
Qed.

Lemma of_string_nonneg s f : PyFloat.of_string s = Some f -> nonneg f = true.
Proof.
  unfold PyFloat.of_string.
  destruct (PyStr.partition "." s) as [ip r].
  set (fp := match r with Some t => t | None => EmptyString end).
  destruct (PyStr.all PyStr.is_digit ip) eqn:Hi; simpl; [|discriminate].
  destruct (PyStr.all PyStr.is_digit fp) eqn:Hf; simpl; [|discriminate].
  destruct (negb (PyStr.is_empty (ip ++ fp))); [|discriminate].
  intros [= <-]. apply of_ratio_nonneg.
  - apply digits_value_nonneg; [|lia]. rewrite all_app, Hi, Hf. reflexivity.
  - apply Z.pow_pos_nonneg; lia.
Qed.

(** ** The Numeric Normalizer *)

(** C3: [parse_price] resolves the separators as the specification describes
    (when both a comma and a period occur, the kind occurring later is the
    decimal point and the other kind is removed; a single comma without a
    period is a decimal point; several periods without a comma are removed;
    anything else is parsed as it is), and the literal cases evaluate to the
    binary64 values nearest to 1234.56, 1234.56, 99, rejection, rejection and
    1.234. *)
Theorem parse_price_separators :
  (forall raw, parse_price raw = NormalizerSpec.normalize raw)
  /\ parse_price "S/ 1,234.56" = Some f1234_56
  /\ parse_price "1.234,56" = Some f1234_56
  /\ parse_price "99" = Some f99
  /\ parse_price "" = None
  /\ parse_price "abc" = None
  /\ parse_price "1.234" = Some f1_234
  /\ NormalizerSpec.rounds 123456 100 f1234_56 = true
  /\ NormalizerSpec.rounds 99 1 f99 = true
  /\ NormalizerSpec.rounds 1234 1000 f1_234 = true.
Proof.
  split; [exact parse_price_normalize|].
  repeat split; vm_compute; reflexivity.
Qed.

Lemma parse_price_signed raw f : parse_price raw = Some f -> nonneg f = true.
Proof.
  unfold parse_price.
  destruct (PyStr.is_empty (clean raw)); [discriminate|].
  apply of_string_nonneg.
Qed.

Lemma nonneg_not_below_zero f : nonneg f = true -> PyFloat.lt f f0 = false.
Proof. destruct f as [[]|[]| |[] m ex]; simpl; try discriminate; reflexivity. Qed.

(** C4 fails as stated: a price text of 310 digits is not rejected and the
    value returned for it is infinite. *)
Lemma parse_price_huge_is_infinite :
  exists f, parse_price huge_price_text = Some f /\ is_finite f = false.
Proof. exists (S754_infinity false). split; vm_compute; reflexivity. Qed.

(** C10: the result of [parse_price] depends only on the digits, commas and
    periods of its input, in their order: removing every other character
    leaves the result unchanged, two inputs with the same such subsequence
    parse alike, and the text [-5.00] yields the positive amount 5.0. *)
Theorem parse_price_ignores_other_chars :
  (forall s, parse_price s = parse_price (PyStr.filter is_price_char s))
  /\ (forall s t, PyStr.filter is_price_char s = PyStr.filter is_price_char t ->
                  parse_price s = parse_price t)
  /\ (forall s c t, is_price_char c = false ->
                    parse_price (s ++ String c t) = parse_price (s ++ t))
  /\ parse_price "-5.00" = Some f5
  /\ parse_price "-5.00" = parse_price "5.00"
  /\ NormalizerSpec.rounds 5 1 f5 = true.
Proof.
  assert (H : forall s t, PyStr.filter is_price_char s = PyStr.filter is_price_char t ->
                          parse_price s = parse_price t).
  { intros s t E. unfold parse_price, clean. rewrite E. reflexivity. }
  split; [|split; [exact H|split]].
  - intros s. apply H. symmetry. apply filter_idem.
  - intros s c t Hc. apply H. rewrite !filter_app. simpl. rewrite Hc. reflexivity.
  - repeat split; vm_compute; reflexivity.
Qed.

Lemma parse_price_ignores_other_chars_witness :
  parse_price "S/ 1,234.56 (oferta)" = parse_price "1,234.56".
Proof.
  apply (proj1 (proj2 parse_price_ignores_other_chars)). reflexivity.
Defined.

(** ** The Identity Deriver *)

Section TextFacts.

Import PyText.

Lemma lstrip_spaces w s : PyStr.all is_space w = true -> lstrip (w ++ s) = lstrip s.
Proof.
  induction w as [|c w IH]; simpl; [reflexivity|].
  intros H. apply andb_true_iff in H as [Hc Hw]. rewrite Hc. auto.
Qed.

Lemma rstrip_all_spaces w : PyStr.all is_space w = true -> rstrip w = EmptyString.
Proof.
  induction w as [|c w IH]; simpl; [reflexivity|].
  intros H. apply andb_true_iff in H as [Hc Hw]. rewrite (IH Hw), Hc. reflexivity.
Qed.

Lemma rstrip_spaces s w : PyStr.all is_space w = true -> rstrip (s ++ w) = rstrip s.
Proof.
  intros Hw. induction s as [|c s IH]; simpl.
  - apply rstrip_all_spaces, Hw.
  - rewrite IH. reflexivity.
Qed.

Lemma lstrip_all_spaces w : PyStr.all is_space w = true -> lstrip w = EmptyString.
Proof.
  induction w as [|c w IH]; simpl; [reflexivity|].
  intros H. apply andb_true_iff in H as [Hc Hw]. rewrite Hc. auto.
Qed.

(** White space around a title does not survive [strip]. *)
Lemma strip_padding w1 t w2 :
  PyStr.all is_space w1 = true -> PyStr.all is_space w2 = true ->
  strip (w1 ++ t ++ w2) = strip t.
Proof.
  intros H1 H2. unfold strip. rewrite (lstrip_spaces _ _ H1).
  induction t as [|c t IH]; simpl.
  - change (EmptyString ++ w2) with w2. rewrite (lstrip_all_spaces _ H2). reflexivity.
  - destruct (is_space c); [exact IH|].
    change (String c (t ++ w2)) with (String c t ++ w2).
    apply rstrip_spaces, H2.
Qed.

Lemma is_space_lower c : is_space (lower_char c) = is_space c.
Proof. destruct c as [[] [] [] [] [] [] [] []]; reflexivity. Qed.

Lemma lstrip_lower s : lstrip (lower s) = lower (lstrip s).
Proof.
  unfold lower. induction s as [|c s IH]; simpl; [reflexivity|].
  rewrite is_space_lower. destruct (is_space c); [exact IH|reflexivity].
Qed.

Lemma rstrip_lower s : rstrip (lower s) = lower (rstrip s).
Proof.
  unfold lower. induction s as [|c s IH]; simpl; [reflexivity|].
  rewrite IH, is_space_lower.
  destruct (rstrip s); simpl; [destruct (is_space c)|]; reflexivity.
Qed.

Lemma strip_lower s : strip (lower s) = lower (strip s).
Proof. unfold strip. rewrite lstrip_lower, rstrip_lower. reflexivity. Qed.

Lemma partition_at_first c p q :
  PyStr.contains c p = false -> PyStr.partition c (p ++ String c q) = (p, Some q).
Proof.
  induction p as [|a p IH]; simpl.
  - rewrite Ascii.eqb_refl. reflexivity.
  - intros H. apply orb_false_iff in H as [Ha Hp]. rewrite Ha, (IH Hp). reflexivity.
Qed.

Lemma partition_absent c p :
  PyStr.contains c p = false -> PyStr.partition c p = (p, None).
Proof.
  induction p as [|a p IH]; simpl; [reflexivity|].
  intros H. apply orb_false_iff in H as [Ha Hp]. rewrite Ha, (IH Hp). reflexivity.
Qed.

Lemma before_first_query p q :
  PyStr.contains "?" p = false -> before_first "?" (p ++ "?" ++ q) = p.
Proof.
  intros H. unfold before_first. change ("?" ++ q) with (String "?" q).
  rewrite (partition_at_first _ _ _ H). reflexivity.
Qed.

Lemma before_first_no_query p :
  PyStr.contains "?" p = false -> before_first "?" p = p.
Proof. intros H. unfold before_first. rewrite (partition_absent _ _ H). reflexivity. Qed.

Lemma length_prefix n : forall s, String.length (prefix n s) = Nat.min n (String.length s).
Proof.
  induction n as [|n IH]; intros [|c s]; simpl; auto.
Qed.

Lemma length_app (s t : string) :
  String.length (s ++ t) = (String.length s + String.length t)%nat.
Proof. induction s as [|c s IH]; simpl; auto. Qed.

Lemma length_hexdigest msg : String.length (Sha256.hexdigest msg) = 64%nat.
Proof. unfold Sha256.hexdigest. rewrite !length_app. reflexivity. Qed.

End TextFacts.

Lemma canonical_insensitive site w1 t1 w2 w3 t2 w4 p q1 q2 :
  PyStr.all PyText.is_space (w1 ++ w2 ++ w3 ++ w4) = true ->
  PyText.lower t1 = PyText.lower t2 ->
  PyStr.contains "?" p = false ->
  canonical site (w1 ++ t1 ++ w2) (p ++ "?" ++ q1)
  = canonical site (w3 ++ t2 ++ w4) (p ++ "?" ++ q2).
Proof.
  intros Hw Ht Hp. rewrite !all_app in Hw.
  apply andb_true_iff in Hw as [H1 Hw]. apply andb_true_iff in Hw as [H2 Hw].
  apply andb_true_iff in Hw as [H3 H4].
  unfold canonical.
  rewrite !strip_padding, !before_first_query by assumption.
  rewrite <- !strip_lower, Ht. reflexivity.
Qed.

(** C6: [stable_id] does not depend on the letter case of the title, on white
    space around it, or on what follows the first [?] of the URL; it always
    has 24 characters; the two spellings of the "Nice Shoes" product at
    [https://x/p/1] have the same identifier and the product at
    [https://x/p/2] has another one. *)
Theorem stable_id_insensitive :
  (forall site w1 t1 w2 w3 t2 w4 p q1 q2,
      PyStr.all PyText.is_space (w1 ++ w2 ++ w3 ++ w4) = true ->
      PyText.lower t1 = PyText.lower t2 ->
      PyStr.contains "?" p = false ->
      stable_id site (w1 ++ t1 ++ w2) (p ++ "?" ++ q1)
      = stable_id site (w3 ++ t2 ++ w4) (p ++ "?" ++ q2))
  /\ (forall site title p q,
      PyStr.contains "?" p = false ->
      stable_id site title (p ++ "?" ++ q) = stable_id site title p)
  /\ (forall site title url, String.length (stable_id site title url) = 24%nat)
  /\ stable_id "siteA" "Nice Shoes" "https://x/p/1?utm=foo" = "18791266aeedd443bb627e42"
  /\ stable_id "siteA" "nice shoes" "https://x/p/1?utm=bar" = "18791266aeedd443bb627e42"
  /\ stable_id "siteA" "Nice Shoes" "https://x/p/2" = "fa6e73672ed9dd98ecd571dd"
  /\ stable_id "siteA" "Nice Shoes" "https://x/p/2"
     <> stable_id "siteA" "Nice Shoes" "https://x/p/1?utm=foo".
Proof.
  split; [|split; [|split]].
  - intros. unfold stable_id. erewrite canonical_insensitive; eauto.
  - intros site title p q Hp. unfold stable_id, canonical.
    rewrite before_first_query, before_first_no_query by assumption. reflexivity.
  - intros. unfold stable_id. rewrite length_prefix, length_hexdigest. reflexivity.
  - repeat split; try (vm_compute; reflexivity).
    vm_compute. discriminate.
Qed.

Lemma stable_id_insensitive_witness :
  stable_id "siteA" ("  " ++ "Nice Shoes" ++ " ") ("https://x/p/1" ++ "?" ++ "utm=foo")
  = stable_id "siteA" ("" ++ "NICE shoes" ++ "") ("https://x/p/1" ++ "?" ++ "utm=bar").
Proof.
  apply (proj1 stable_id_insensitive "siteA" "  " "Nice Shoes" " " "" "NICE shoes" ""
           "https://x/p/1" "utm=foo" "utm=bar"); reflexivity.
Defined.

(** ** Comparisons and arithmetic without NaN *)

Section FloatFacts.

Lemma compare_antisym x y :
  SFcompare y x = option_map CompOpp (SFcompare x y).
Proof.
  destruct x as [sx|sx| |sx mx ex], y as [sy|sy| |sy my ey]; simpl;
    try reflexivity;
    try (destruct sx; reflexivity); try (destruct sy; reflexivity);
    try (destruct sx, sy; reflexivity).
  assert (Hp : Pos.compare_cont Eq my mx = CompOpp (Pos.compare_cont Eq mx my))
    by (rewrite Pos.compare_cont_antisym; reflexivity).
  rewrite Hp, (Z.compare_antisym ex ey).
  destruct (ex ?= ey), (Pos.compare_cont Eq mx my), sx, sy; reflexivity.
Qed.

Lemma compare_number x y :
  is_nan x = false -> is_nan y = false -> exists c, SFcompare x y = Some c.
Proof.
  destruct x as [sx|sx| |sx mx ex], y as [sy|sy| |sy my ey]; simpl;
    intros Hx Hy; try discriminate; eauto.
Qed.

(** [not (x <= y)] is [x > y] on numbers. *)
Lemma le_false_gt x y :
  is_nan x = false -> is_nan y = false -> PyFloat.le x y = negb (PyFloat.gt x y).
Proof.
  intros Hx Hy. unfold PyFloat.le, PyFloat.gt, SFleb, SFltb.
  rewrite (compare_antisym x y).
  destruct (compare_number x y Hx Hy) as [c ->]. destruct c; reflexivity.
Qed.

(** [not (x >= y)] is [x < y] and [not (x < y)] is [x >= y] on numbers. *)
Lemma ge_false_lt x y :
  is_nan x = false -> is_nan y = false -> PyFloat.ge x y = negb (PyFloat.lt x y).
Proof.
  intros Hx Hy. unfold PyFloat.ge, PyFloat.lt, SFleb, SFltb.
  rewrite (compare_antisym x y).
  destruct (compare_number x y Hx Hy) as [c ->]. destruct c; reflexivity.
Qed.

Lemma signed_number s x : signed s x -> is_nan x = false.
Proof. destruct x; simpl; tauto. Qed.

Lemma finite_number x : is_finite x = true -> is_nan x = false.
Proof. destruct x; simpl; congruence. Qed.

Lemma binary_normalize_number m ex sz :
  is_nan (binary_normalize prec emax m ex sz) = false.
Proof.
  destruct m; simpl; [reflexivity| |]; eapply signed_number, binary_round_signed.
Qed.

Lemma sub_number x y :
  is_finite x = true -> is_nan y = false -> is_nan (PyFloat.sub x y) = false.
Proof.
  unfold PyFloat.sub.
  destruct x as [sx|sx| |sx mx ex], y as [sy|sy| |sy my ey]; simpl;
    intros Hx Hy; try discriminate; try reflexivity;
    try (destruct sx, sy; reflexivity).
  apply binary_normalize_number.
Qed.

Lemma div_number x sy my ey :
  is_nan x = false -> is_nan (PyFloat.div x (S754_finite sy my ey)) = false.
Proof.
  unfold PyFloat.div.
  destruct x as [sx|sx| |sx mx ex]; simpl; intros Hx; try discriminate; try reflexivity.
  pose proof (div_core_nonneg prec emax (Z.pos mx) ex (Z.pos my) ey
                ltac:(lia) ltac:(lia)) as Hq.
  destruct (SFdiv_core_binary prec emax (Z.pos mx) ex (Z.pos my) ey) as [[q e'] l].
  eapply signed_number, binary_round_aux_signed. exact Hq.
Qed.

Lemma mul_number x sy my ey :
  is_nan x = false -> is_nan (PyFloat.mul x (S754_finite sy my ey)) = false.
Proof.
  unfold PyFloat.mul.
  destruct x as [sx|sx| |sx mx ex]; simpl; intros Hx; try discriminate; try reflexivity.
  eapply signed_number, binary_round_aux_signed. lia.
Qed.

(** The drop percentage of a positive finite old price and a numeric new price
    is a number. *)
Lemma drop_percentage_number old_price new_price :
  is_finite old_price = true -> PyFloat.gt old_price f0 = true ->
  is_nan new_price = false ->
  is_nan (DetectorSpec.drop_percentage old_price new_price) = false.
Proof.
  intros Hf Hpos Hn. unfold DetectorSpec.drop_percentage, f100.
  apply mul_number.
  destruct old_price as [s|s| |s m ex]; try discriminate.
  apply div_number, sub_number; [reflexivity|exact Hn].
Qed.

End FloatFacts.

(** ** The Drop Detector *)

Lemma detect_alert_worthy cfg entry product :
  is_finite (last_price entry) = true ->
  is_nan (price_pen product) = false ->
  is_nan (DROP_THRESHOLD cfg) = false ->
  detect cfg (Some entry) product =
  if DetectorSpec.alert_worthy (DROP_THRESHOLD cfg) (last_price entry) (price_pen product)
  then Some (last_price entry,
             DetectorSpec.drop_percentage (last_price entry) (price_pen product))
  else None.
Proof.
  intros Hold Hnew Hthr. unfold detect, DetectorSpec.alert_worthy.
  pose proof (finite_number _ Hold) as Hold'.
  rewrite (le_false_gt (last_price entry) f0 Hold' eq_refl).
  rewrite (ge_false_lt (price_pen product) (last_price entry) Hnew Hold').
  destruct (PyFloat.gt (last_price entry) f0) eqn:Hpos; simpl; [|reflexivity].
  destruct (PyFloat.lt (price_pen product) (last_price entry)); simpl; [|reflexivity].
  fold (DetectorSpec.drop_percentage (last_price entry) (price_pen product)).
  rewrite (ge_false_lt _ _ (drop_percentage_number _ _ Hold Hpos Hnew) Hthr).
  destruct (PyFloat.lt _ (DROP_THRESHOLD cfg)); reflexivity.
Qed.

(** The decision outside the finite numbers. *)
Section DetectorEdges.

Lemma lt_nan_r x : PyFloat.lt x S754_nan = false.
Proof. destruct x; reflexivity. Qed.

Lemma lt_nan_l x : PyFloat.lt S754_nan x = false.
Proof. destruct x; reflexivity. Qed.

Lemma drop_percentage_nan_old new_price :
  DetectorSpec.drop_percentage S754_nan new_price = S754_nan.
Proof. destruct new_price; reflexivity. Qed.

Lemma drop_percentage_nan_new old_price :
  DetectorSpec.drop_percentage old_price S754_nan = S754_nan.
Proof. destruct old_price; reflexivity. Qed.

Lemma drop_percentage_infinite_old new_price :
  is_nan new_price = false -> new_price <> S754_infinity false ->
  DetectorSpec.drop_percentage (S754_infinity false) new_price = S754_nan.
Proof.
  destruct new_price as [s|[]| |s m e]; intros Hn Hi;
    try discriminate; try contradiction; reflexivity.
Qed.

(** A stored price of [+inf]: every new price other than [+inf] raises a
    candidate, with a NaN drop percentage. *)
Lemma detect_infinite_old cfg entry product :
  last_price entry = S754_infinity false ->
  is_nan (price_pen product) = false ->
  detect cfg (Some entry) product
  = if PyFloat.ge (price_pen product) (S754_infinity false) then None
    else Some (S754_infinity false, S754_nan).
Proof.
  intros Ho Hn. unfold detect. rewrite Ho.
  change (PyFloat.le (S754_infinity false) f0) with false. cbn [orb].
  destruct (PyFloat.ge (price_pen product) (S754_infinity false)) eqn:Hge; [reflexivity|].
  fold (DetectorSpec.drop_percentage (S754_infinity false) (price_pen product)).
  rewrite drop_percentage_infinite_old, lt_nan_l; [reflexivity|exact Hn|].
  intros E. rewrite E in Hge. discriminate.
Qed.

(** A NaN threshold stops no drop. *)
Lemma detect_nan_threshold cfg entry product :
  is_nan (DROP_THRESHOLD cfg) = true ->
  is_nan (last_price entry) = false -> is_nan (price_pen product) = false ->
  detect cfg (Some entry) product
  = if PyFloat.gt (last_price entry) f0 && PyFloat.lt (price_pen product) (last_price entry)
    then Some (last_price entry,
               DetectorSpec.drop_percentage (last_price entry) (price_pen product))
    else None.
Proof.
  intros Ht Ho Hn. unfold detect.
  rewrite (le_false_gt (last_price entry) f0 Ho eq_refl).
  rewrite (ge_false_lt (price_pen product) (last_price entry) Hn Ho).
  destruct (DROP_THRESHOLD cfg); try discriminate. rewrite lt_nan_r.
  destruct (PyFloat.gt (last_price entry) f0), (PyFloat.lt (price_pen product) (last_price entry));
    reflexivity.
Qed.

Lemma detect_nan_old cfg entry product :
  is_nan (last_price entry) = true ->
  detect cfg (Some entry) product = Some (S754_nan, S754_nan).
Proof.
  intros Ho. unfold detect. destruct (last_price entry); try discriminate.
  fold (DetectorSpec.drop_percentage S754_nan (price_pen product)).
  rewrite drop_percentage_nan_old, lt_nan_l.
  destruct (price_pen product); reflexivity.
Qed.

Lemma detect_nan_new cfg entry product :
  is_nan (price_pen product) = true -> is_nan (last_price entry) = false ->
  detect cfg (Some entry) product
  = if PyFloat.gt (last_price entry) f0 then Some (last_price entry, S754_nan) else None.
Proof.
  intros Hn Ho. unfold detect. rewrite (le_false_gt (last_price entry) f0 Ho eq_refl).
  destruct (price_pen product); try discriminate.
  fold (DetectorSpec.drop_percentage (last_price entry) S754_nan).
  rewrite drop_percentage_nan_new, lt_nan_l.
  replace (PyFloat.ge S754_nan (last_price entry)) with false
    by (destruct (last_price entry); reflexivity).
  destruct (PyFloat.gt (last_price entry) f0); reflexivity.
Qed.

Lemma is_Some_if {A} (b : bool) (x : A) : is_Some (if b then Some x else None) <-> b = true.
Proof. destruct b; split; intros H; try discriminate; eauto. destruct H; discriminate. Qed.

End DetectorEdges.

(** C2, as the code has it: an identifier without prior state raises no alert
    on its first observation; when the prior price, the new price and the
    threshold are numbers and the prior price is not [+inf], a candidate is
    raised exactly when the prior price is positive, the new price is below it
    and the drop percentage is at least the threshold; a stored price of
    [+inf] raises a candidate for every new price other than [+inf], the drop
    percentage being a NaN; a NaN threshold stops no drop; a NaN price raises
    a candidate whenever the prior price is not a number at or below zero.
    With threshold 50, 100.00 -> 40.00 is raised (a drop of 60) and
    100.00 -> 60.00 is not. *)
Theorem drop_detector_decision :
  (forall cfg product, detect cfg None product = None)
  /\ (forall cfg site now mem product,
        known_products mem !! product_id product = None ->
        observe cfg site now mem product
        = {| known_products := <[ product_id product := tracked_entry site now product ]>
                                  (known_products mem);
             ledger := ledger mem; alerts := alerts mem |})
  /\ (forall cfg entry product,
        is_nan (last_price entry) = false ->
        last_price entry <> S754_infinity false ->
        is_nan (price_pen product) = false ->
        is_nan (DROP_THRESHOLD cfg) = false ->
        (is_Some (detect cfg (Some entry) product) <->
         PyFloat.gt (last_price entry) f0 = true
         /\ PyFloat.lt (price_pen product) (last_price entry) = true
         /\ PyFloat.ge (DetectorSpec.drop_percentage (last_price entry) (price_pen product))
                       (DROP_THRESHOLD cfg) = true))
  /\ (forall cfg entry product,
        last_price entry = S754_infinity false ->
        is_nan (price_pen product) = false ->
        detect cfg (Some entry) product
        = if PyFloat.ge (price_pen product) (S754_infinity false) then None
          else Some (S754_infinity false, S754_nan))
  /\ (forall cfg entry product,
        is_nan (DROP_THRESHOLD cfg) = true ->
        is_nan (last_price entry) = false -> is_nan (price_pen product) = false ->
        (is_Some (detect cfg (Some entry) product) <->
         PyFloat.gt (last_price entry) f0 = true
         /\ PyFloat.lt (price_pen product) (last_price entry) = true))
  /\ (forall cfg entry product,
        is_nan (last_price entry) = true ->
        is_Some (detect cfg (Some entry) product))
  /\ (forall cfg entry product,
        is_nan (price_pen product) = true -> is_nan (last_price entry) = false ->
        (is_Some (detect cfg (Some entry) product) <->
         PyFloat.gt (last_price entry) f0 = true))
  /\ detect default_config (Some (Scenario.tracked_at f100 500 (Scenario.item "x" f100)))
            (Scenario.item "x" f40) = Some (f100, f60)
  /\ detect default_config (Some (Scenario.tracked_at f100 500 (Scenario.item "x" f100)))
            (Scenario.item "x" f60) = None
  /\ NormalizerSpec.rounds 100 1 f100 = true /\ NormalizerSpec.rounds 40 1 f40 = true
  /\ NormalizerSpec.rounds 60 1 f60 = true /\ NormalizerSpec.rounds 50 1 f50 = true.
Proof.
  split; [reflexivity|]. split; [|split; [|split; [|split; [|split; [|split]]]]].
  - intros cfg s now mem product Hnone. unfold observe. rewrite Hnone. reflexivity.
  - intros cfg entry product Hold Hinf Hnew Hthr.
    destruct (is_finite (last_price entry)) eqn:Hfin.
    + rewrite (detect_alert_worthy cfg entry product Hfin Hnew Hthr).
      unfold DetectorSpec.alert_worthy. rewrite is_Some_if, !andb_true_iff. tauto.
    + destruct (last_price entry) as [s0|[]| |s0 m e] eqn:Ho; try discriminate.
      * unfold detect. rewrite Ho. cbn. split; [intros [x Hx]; discriminate|].
        intros (H & _). discriminate.
      * contradiction.
  - exact detect_infinite_old.
  - intros cfg entry product Ht Ho Hn.
    rewrite (detect_nan_threshold cfg entry product Ht Ho Hn), is_Some_if, andb_true_iff.
    tauto.
  - intros cfg entry product Ho. rewrite (detect_nan_old cfg entry product Ho). eauto.
  - intros cfg entry product Hn Ho.
    rewrite (detect_nan_new cfg entry product Hn Ho). apply is_Some_if.
  - repeat split; vm_compute; reflexivity.
Qed.

Lemma drop_detector_decision_witness :
  is_Some (detect default_config (Some (Scenario.tracked_at f100 500 (Scenario.item "x" f100)))
                  (Scenario.item "x" f40)) <->
  PyFloat.gt f100 f0 = true /\ PyFloat.lt f40 f100 = true
  /\ PyFloat.ge (DetectorSpec.drop_percentage f100 f40) f50 = true.
Proof.
  apply (proj1 (proj2 (proj2 drop_detector_decision)) default_config
           (Scenario.tracked_at f100 500 (Scenario.item "x" f100)) (Scenario.item "x" f40));
    [reflexivity|discriminate|reflexivity|reflexivity].
Defined.

(** C2 fails as stated: a price text of 310 digits is kept by the extractor
    as [+inf]; once stored, a new price of 40.00 raises a candidate although
    the drop percentage, a NaN, is not at least the threshold. *)
Lemma drop_detector_fails_on_infinite_price :
  parse_price huge_price_text = Some (S754_infinity false)
  /\ PyFloat.le (S754_infinity false) f0 = false
  /\ ~ (is_Some (detect default_config
                   (Some (Scenario.tracked_at (S754_infinity false) 500 (Scenario.item "x" f100)))
                   (Scenario.item "x" f40))
        <-> PyFloat.gt (S754_infinity false) f0 = true
            /\ PyFloat.lt f40 (S754_infinity false) = true
            /\ PyFloat.ge (DetectorSpec.drop_percentage (S754_infinity false) f40) f50 = true).
Proof.
  split; [vm_compute; reflexivity|]. split; [reflexivity|].
  intros [H _].
  assert (Hs : is_Some (detect default_config
                 (Some (Scenario.tracked_at (S754_infinity false) 500 (Scenario.item "x" f100)))
                 (Scenario.item "x" f40))) by (vm_compute; eauto).
  destruct (H Hs) as (_ & _ & Hge). vm_compute in Hge. discriminate.
Qed.

(** Outside the numbers: a stored price of [+inf] makes the drop percentage a
    NaN, which is not below the threshold. *)
Lemma detect_infinite_prior_price :
  detect default_config
         (Some (Scenario.tracked_at (S754_infinity false) 500 (Scenario.item "x" f100)))
         (Scenario.item "x" f40)
  = Some (S754_infinity false, S754_nan).
Proof. vm_compute. reflexivity. Qed.

(** ** What a run keeps *)

Lemma grows_refl m : grows m m.
Proof. split; auto. Qed.

Lemma grows_trans m1 m2 m3 : grows m1 m2 -> grows m2 m3 -> grows m1 m3.
Proof. intros [A1 B1] [A2 B2]. split; auto. Qed.

Lemma observe_known cfg s now mem product :
  known_products (observe cfg s now mem product)
  = <[ product_id product := tracked_entry s now product ]> (known_products mem).
Proof.
  unfold observe.
  destruct (detect cfg _ product) as [[old_price drop_pct]|]; [|reflexivity].
  destruct (ledger mem !! alert_key product old_price); reflexivity.
Qed.

Lemma observe_grows cfg s now mem product : grows mem (observe cfg s now mem product).
Proof.
  split.
  - intros k v Hk. unfold observe.
    destruct (detect cfg _ product) as [[old_price drop_pct]|]; [|exact Hk].
    destruct (ledger mem !! alert_key product old_price) eqn:Hkey; [exact Hk|].
    cbn [ledger]. rewrite lookup_insert_ne; [exact Hk|]. intros E. congruence.
  - intros k Hk. rewrite observe_known.
    destruct (decide (product_id product = k)) as [->|Hne].
    + rewrite lookup_insert_eq. eauto.
    + rewrite lookup_insert_ne; auto.
Qed.

Lemma observe_all_grows cfg s now found : forall mem,
  grows mem (List.fold_left (observe cfg s now) found mem).
Proof.
  induction found as [|p found IH]; intros mem; simpl; [apply grows_refl|].
  eapply grows_trans; [apply observe_grows|apply IH].
Qed.


Lemma visit_grows cfg w acc entry : grows (fst acc) (fst (visit cfg w acc entry)).
Proof.
  destruct acc as [mem lg], entry as [s u]. simpl.
  destruct (scrape w s u); simpl; [apply observe_all_grows|apply grows_refl].
Qed.

Lemma visit_all_grows cfg w sites : forall acc,
  grows (fst acc) (fst (List.fold_left (visit cfg w) sites acc)).
Proof.
  induction sites as [|e sites IH]; intros acc; simpl; [apply grows_refl|].
  eapply grows_trans; [apply visit_grows|apply IH].
Qed.


(** What a run leaves on disk: the scanned memory when it completes, the state
    it started from otherwise. *)
Lemma monitor_persisted cfg w state :
  (outcome (monitor cfg w state) = Completed
   /\ saved (monitor cfg w state)
      = Some {| products := known_products (scanned cfg w state);
                alerts_sent := ledger (scanned cfg w state);
                last_run := Some (end_time w) |})
  \/ (outcome (monitor cfg w state) <> Completed /\ saved (monitor cfg w state) = None).
Proof.
  unfold monitor, scanned.
  destruct (missing (telegram_token w) || missing (telegram_chat_id w));
    [right; split; [discriminate|reflexivity]|].
  destruct (List.fold_left (visit cfg w) SITES _) as [mem lg]. simpl.
  destruct (send_all w 0 _ [] lg) as [[ok sent] lg'].
  destruct ok; [left|right]; simpl; split; try reflexivity; discriminate.
Qed.

Lemma monitor_keeps cfg w state :
  keeps (alerts_sent state) (alerts_sent (persisted state (monitor cfg w state)))
        (products state) (products (persisted state (monitor cfg w state))).
Proof.
  unfold persisted.
  destruct (monitor_persisted cfg w state) as [[_ ->]|[_ ->]]; [|split; auto].
  apply (visit_all_grows cfg w SITES
           ({| known_products := products state; ledger := alerts_sent state; alerts := [] |},
            []%list)).
Qed.

(** ** The send phase *)

Lemma send_all_failure w n alert rest sent lg :
  deliver w n alert = false ->
  send_all w n (alert :: rest) sent lg = (false, (sent ++ [alert])%list, lg).
Proof. intros H. simpl. rewrite H. reflexivity. Qed.

Lemma send_all_success w pending : forall n sent lg,
  (forall i a, deliver w i a = true) ->
  send_all w n pending sent lg
  = (true, (sent ++ pending)%list,
     (lg ++ List.repeat LogAlertSent (List.length pending))%list).
Proof.
  induction pending as [|a rest IH]; intros n sent lg Hok; simpl.
  - rewrite !app_nil_r. reflexivity.
  - rewrite Hok, (IH _ _ _ Hok), <- !app_assoc. reflexivity.
Qed.

(** The messages handed to the sender are a prefix of the pending ones. *)
Lemma send_all_prefix w pending : forall n sent lg,
  exists k, snd (fst (send_all w n pending sent lg)) = (sent ++ List.firstn k pending)%list.
Proof.
  induction pending as [|a rest IH]; intros n sent lg; simpl.
  - exists 0%nat. rewrite app_nil_r. reflexivity.
  - destruct (deliver w n a).
    + destruct (IH (S n) (sent ++ [a])%list (lg ++ [LogAlertSent])%list) as [k Hk].
      exists (S k). rewrite Hk, <- app_assoc. reflexivity.
    + exists 1%nat. reflexivity.
Qed.

Lemma length_slice_to {A} (n : Z) (l : list A) :
  0 <= n -> Z.of_nat (List.length (slice_to n l)) = Z.min (Z.of_nat (List.length l)) n.
Proof.
  intros Hn. unfold slice_to. destruct (0 <=? n) eqn:E; [|lia].
  rewrite List.length_firstn. lia.
Qed.

(** Every accepted alert comes with one new ledger entry. *)
Lemma observe_counts cfg s now mem product :
  (size (ledger (observe cfg s now mem product)) + List.length (alerts mem)
   = size (ledger mem) + List.length (alerts (observe cfg s now mem product)))%nat.
Proof.
  unfold observe.
  destruct (detect cfg _ product) as [[old_price drop_pct]|]; [|reflexivity].
  destruct (ledger mem !! alert_key product old_price) eqn:Hkey; [reflexivity|].
  cbn [ledger alerts]. rewrite (map_size_insert_None _ _ _ Hkey), List.length_app. simpl. lia.
Qed.

Lemma observe_all_counts cfg s now found : forall mem,
  (size (ledger (List.fold_left (observe cfg s now) found mem)) + List.length (alerts mem)
   = size (ledger mem)
     + List.length (alerts (List.fold_left (observe cfg s now) found mem)))%nat.
Proof.
  induction found as [|p found IH]; intros mem; simpl; [reflexivity|].
  pose proof (IH (observe cfg s now mem p)). pose proof (observe_counts cfg s now mem p). lia.
Qed.

Lemma visit_all_counts cfg w sites : forall acc,
  (size (ledger (fst (List.fold_left (visit cfg w) sites acc))) + List.length (alerts (fst acc))
   = size (ledger (fst acc))
     + List.length (alerts (fst (List.fold_left (visit cfg w) sites acc))))%nat.
Proof.
  induction sites as [|[s u] sites IH]; intros [mem lg]; simpl; [reflexivity|].
  destruct (scrape w s u) as [found|].
  - pose proof (IH (List.fold_left (observe cfg s (time_at w s)) found mem,
                    (lg ++ [LogAnalysing u; LogDetected s (List.length found)])%list)) as H1.
    pose proof (observe_all_counts cfg s (time_at w s) found mem). simpl in H1. lia.
  - apply (IH (mem, (lg ++ [LogAnalysing u; LogFetchFailed s])%list)).
Qed.

(** A run whose deliveries all succeed hands the first [min N cap] accepted
    alerts to the sender, in order, and saves a ledger with one new entry for
    each of the [N] accepted alerts. *)
Lemma monitor_sends_capped cfg w state :
  missing (telegram_token w) = false -> missing (telegram_chat_id w) = false ->
  (forall i a, deliver w i a = true) -> 0 <= MAX_ALERTS_PER_RUN cfg ->
  let accepted := alerts (scanned cfg w state) in
  attempted (monitor cfg w state) = slice_to (MAX_ALERTS_PER_RUN cfg) accepted
  /\ Z.of_nat (List.length (attempted (monitor cfg w state)))
     = Z.min (Z.of_nat (List.length accepted)) (MAX_ALERTS_PER_RUN cfg)
  /\ exists s, saved (monitor cfg w state) = Some s
       /\ size (alerts_sent s) = (size (alerts_sent state) + List.length accepted)%nat.
Proof.
  intros Ht Hc Hok Hcap accepted.
  pose proof (visit_all_counts cfg w SITES
    ({| known_products := products state; ledger := alerts_sent state; alerts := [] |},
     []%list)) as Hcount.
  subst accepted. unfold monitor, scanned in *. rewrite Ht, Hc. simpl orb. cbv iota.
  destruct (List.fold_left (visit cfg w) SITES _) as [mem lg]. simpl in *.
  rewrite (send_all_success w _ 0%nat [] lg Hok). simpl.
  split; [reflexivity|]. split; [apply length_slice_to, Hcap|].
  eexists. split; [reflexivity|]. simpl. lia.
Qed.

(** A run whose sender raises saves nothing. *)
Lemma monitor_raised_saves_nothing cfg w state :
  outcome (monitor cfg w state) = RaisedBySend ->
  saved (monitor cfg w state) = None /\ persisted state (monitor cfg w state) = state.
Proof.
  intros H. unfold persisted.
  destruct (monitor_persisted cfg w state) as [[Hc _]|[_ ->]]; [congruence|auto].
Qed.

(** C1, on the code: with two alerts pending and a first delivery that fails,
    the run ends in the exception of the sender; the second alert is never
    handed to the sender, nothing is logged about the failure and the state is
    not saved. *)
Theorem send_failure_aborts_run :
  List.length (alerts (scanned default_config
                         (Scenario.world 1000 Runs.pair (Scenario.all_but 0))
                         (Scenario.tracking f100 Runs.pair))) = 2%nat
  /\ outcome Runs.first_send_fails = RaisedBySend
  /\ attempted Runs.first_send_fails
     = [alert_text Scenario.shop (Scenario.item "x" f40) f100 f60]
  /\ saved Runs.first_send_fails = None
  /\ log Runs.first_send_fails
     = [LogAnalysing "https://www.mercadolibre.com.pe/ofertas";
        LogDetected "mercadolibre" 2;
        LogAnalysing "https://www.falabella.com.pe/falabella-pe/category/cat40712/Ofertas";
        LogFetchFailed "falabella";
        LogAnalysing "https://pe.hm.com/sale/view-all.html";
        LogFetchFailed "hm";
        LogAnalysing "https://www.shopstar.pe/collections/ofertas";
        LogFetchFailed "shopstar"].
Proof. repeat split; vm_compute; reflexivity. Qed.

(** C7, on the code: 25 qualifying drops under a cap of 20 give 20 sends and
    25 saved ledger entries when every delivery succeeds; when the third
    delivery fails the run stops after 3 sends and saves no ledger entry. *)
Theorem cap_with_failing_send :
  List.length (alerts (scanned (Scenario.with_cap 20)
                         (Scenario.world 1000 Runs.many Scenario.always)
                         (Scenario.tracking f100 Runs.many))) = 25%nat
  /\ outcome Runs.capped = Completed
  /\ List.length (attempted Runs.capped) = 20%nat
  /\ size (alerts_sent (persisted (Scenario.tracking f100 Runs.many) Runs.capped)) = 25%nat
  /\ outcome Runs.capped_third_send_fails = RaisedBySend
  /\ List.length (attempted Runs.capped_third_send_fails) = 3%nat
  /\ saved Runs.capped_third_send_fails = None
  /\ size (alerts_sent (persisted (Scenario.tracking f100 Runs.many)
                          Runs.capped_third_send_fails)) = 0%nat.
Proof. repeat split; vm_compute; reflexivity. Qed.

(** ** The Alert Deduplicator *)

(** While every delivery succeeds: a candidate whose transition key is in the
    ledger is suppressed and leaves the ledger as it is; otherwise it is
    accepted and its key is recorded with the current timestamp; a run never
    removes or changes a ledger entry that is on disk; and over three
    completed runs in which the product goes from 100.00 to 40.00, back to
    100.00 and to 40.00 again, one alert is accepted in total and the ledger
    keeps the timestamp of the first run. *)
Theorem ledger_on_completed_runs :
  (forall cfg s now mem product old_price drop_pct stamp,
      detect cfg (known_products mem !! product_id product) product
        = Some (old_price, drop_pct) ->
      ledger mem !! alert_key product old_price = Some stamp ->
      alerts (observe cfg s now mem product) = alerts mem
      /\ ledger (observe cfg s now mem product) = ledger mem)
  /\ (forall cfg s now mem product old_price drop_pct,
      detect cfg (known_products mem !! product_id product) product
        = Some (old_price, drop_pct) ->
      ledger mem !! alert_key product old_price = None ->
      alerts (observe cfg s now mem product)
        = (alerts mem ++ [alert_text s product old_price drop_pct])%list
      /\ ledger (observe cfg s now mem product)
        = <[ alert_key product old_price := now ]> (ledger mem))
  /\ (forall cfg w state k stamp,
      alerts_sent state !! k = Some stamp ->
      alerts_sent (persisted state (monitor cfg w state)) !! k = Some stamp)
  /\ alert_key (Scenario.item "x" f40) f100 = "x:100.00->40.00"
  /\ List.length (attempted Runs.run1) = 1%nat
  /\ attempted Runs.run2 = []
  /\ attempted Runs.run3 = []
  /\ alerts (scanned default_config
               (Scenario.world 3000 [Scenario.item "x" f40] Scenario.always) Runs.state2) = []
  /\ alerts_sent Runs.state3 !! "x:100.00->40.00" = Some 1000
  /\ size (alerts_sent Runs.state3) = 1%nat.
Proof.
  split; [|split; [|split]].
  - intros cfg s now mem product old_price drop_pct stamp Hd Hk.
    unfold observe. rewrite Hd, Hk. auto.
  - intros cfg s now mem product old_price drop_pct Hd Hk.
    unfold observe. rewrite Hd, Hk. auto.
  - intros cfg w state k stamp Hk. apply (proj1 (monitor_keeps cfg w state)), Hk.
  - repeat split; vm_compute; reflexivity.
Qed.

Lemma ledger_on_completed_runs_witness :
  alerts_sent (persisted Runs.state1
                 (monitor default_config
                    (Scenario.world 2000 [Scenario.item "x" f100] Scenario.always) Runs.state1))
    !! "x:100.00->40.00" = Some 1000.
Proof.
  apply (proj1 (proj2 (proj2 ledger_on_completed_runs))). vm_compute. reflexivity.
Defined.

(** C5, on the code: a key recorded during a run whose delivery raises never
    reaches the disk, so the next run scans exactly as if the failed run had
    not happened. With one product dropping from 100.00 to 40.00 and a failed
    delivery, the transition x:100.00->40.00 is accepted in the first run and
    recorded in memory with timestamp 1000; the run raises and saves nothing;
    the second run finds no such key, accepts the identical transition again,
    sends it, and saves the key with timestamp 2000: two accepted alerts in
    total for one transition. *)
Theorem alert_accepted_again_after_failed_send :
  (forall cfg w w' state,
      outcome (monitor cfg w state) = RaisedBySend ->
      alerts_sent (persisted state (monitor cfg w state)) = alerts_sent state
      /\ scanned cfg w' (persisted state (monitor cfg w state)) = scanned cfg w' state)
  /\ alert_key (Scenario.item "x" f40) f100 = "x:100.00->40.00"
  /\ alerts (scanned default_config Resend.failing_world Runs.state0)
     = [alert_text Scenario.shop (Scenario.item "x" f40) f100 f60]
  /\ ledger (scanned default_config Resend.failing_world Runs.state0) !! "x:100.00->40.00"
     = Some 1000
  /\ outcome Resend.failed_run = RaisedBySend
  /\ attempted Resend.failed_run = [alert_text Scenario.shop (Scenario.item "x" f40) f100 f60]
  /\ saved Resend.failed_run = None
  /\ Resend.state_after = Runs.state0
  /\ alerts_sent Resend.state_after !! "x:100.00->40.00" = None
  /\ alerts (scanned default_config Resend.next_world Resend.state_after)
     = [alert_text Scenario.shop (Scenario.item "x" f40) f100 f60]
  /\ outcome Resend.next_run = Completed
  /\ attempted Resend.next_run = [alert_text Scenario.shop (Scenario.item "x" f40) f100 f60]
  /\ alerts_sent (persisted Resend.state_after Resend.next_run) !! "x:100.00->40.00"
     = Some 2000.
Proof.
  split.
  - intros cfg w w' state H.
    destruct (monitor_raised_saves_nothing cfg w state H) as [_ ->]. split; reflexivity.
  - repeat split; vm_compute; reflexivity.
Qed.

Lemma alert_accepted_again_after_failed_send_witness :
  alerts_sent Resend.state_after = alerts_sent Runs.state0
  /\ scanned default_config Resend.next_world Resend.state_after
     = scanned default_config Resend.next_world Runs.state0.
Proof.
  apply (proj1 alert_accepted_again_after_failed_send default_config Resend.failing_world
           Resend.next_world Runs.state0).
  vm_compute. reflexivity.
Defined.

(** ** The tracked-product state *)



(** ** The Product Extractor *)

Section DedupeFacts.

Lemma setdefault_present {A} key (value : A) d :
  In key (List.map fst d) -> setdefault key value d = d.
Proof.
  induction d as [|[k v] d IH]; simpl; [tauto|].
  destruct (String.eqb k key) eqn:E; [reflexivity|].
  apply String.eqb_neq in E. intros [H|H]; [congruence|]. rewrite (IH H). reflexivity.
Qed.

Lemma setdefault_absent {A} key (value : A) d :
  ~ In key (List.map fst d) -> setdefault key value d = (d ++ [(key, value)])%list.
Proof.
  induction d as [|[k v] d IH]; simpl; [reflexivity|].
  intros H. destruct (String.eqb k key) eqn:E.
  - apply String.eqb_eq in E. tauto.
  - rewrite IH; [reflexivity|tauto].
Qed.

Lemma keys_as_set (d : list (string * Product)) key :
  key ∈ (list_to_set (List.map fst d) : gset string) <-> In key (List.map fst d).
Proof. rewrite elem_of_list_to_set. apply list_elem_of_In. Qed.

(** The dictionary built by [setdefault] holds the first record of each
    identifier, in order of first appearance. *)
Lemma fold_setdefault found : forall d : list (string * Product),
  List.map snd (List.fold_left (fun deduped p => setdefault (product_id p) p deduped) found d)
  = (List.map snd d ++ first_of_each_from (list_to_set (List.map fst d)) found)%list.
Proof.
  induction found as [|p found IH]; intros d; simpl; [rewrite app_nil_r; reflexivity|].
  destruct (decide (product_id p ∈ (list_to_set (List.map fst d) : gset string))) as [Hin|Hout].
  - rewrite setdefault_present by (apply keys_as_set, Hin). apply IH.
  - rewrite setdefault_absent by (rewrite <- keys_as_set; exact Hout).
    rewrite IH, !List.map_app, <- app_assoc. simpl. do 3 f_equal.
    rewrite list_to_set_app_L. simpl. rewrite union_empty_r_L. apply union_comm_L.
Qed.

Lemma dedupe_first_of_each found : dedupe found = first_of_each found.
Proof. unfold dedupe, first_of_each. rewrite fold_setdefault. reflexivity. Qed.

Lemma first_of_each_from_in found : forall earlier p,
  In p (first_of_each_from earlier found) -> In p found /\ product_id p ∉ earlier.
Proof.
  induction found as [|q found IH]; intros earlier p; simpl; [tauto|].
  destruct (decide (product_id q ∈ earlier)) as [Hin|Hout].
  - intros H. destruct (IH _ _ H). auto.
  - intros [->|H]; [auto|]. destruct (IH _ _ H) as [H1 H2]. split; [auto|].
    intros Hx. apply H2, elem_of_union. auto.
Qed.

Lemma first_of_each_from_nodup found : forall earlier,
  List.NoDup (List.map product_id (first_of_each_from earlier found)).
Proof.
  induction found as [|q found IH]; intros earlier; simpl; [constructor|].
  destruct (decide (product_id q ∈ earlier)); [apply IH|].
  simpl. constructor; [|apply IH].
  intros H. apply List.in_map_iff in H as (p & Hid & Hp).
  apply first_of_each_from_in in Hp as [_ Hp]. rewrite Hid in Hp.
  apply Hp, elem_of_union_l, elem_of_singleton. reflexivity.
Qed.

Lemma first_of_each_from_length found : forall earlier,
  (List.length (first_of_each_from earlier found) <= List.length found)%nat.
Proof.
  induction found as [|q found IH]; intros earlier; simpl; [lia|].
  destruct (decide (product_id q ∈ earlier)); simpl;
    [pose proof (IH earlier)|pose proof (IH ({[product_id q]} ∪ earlier))]; lia.
Qed.

(** No identifier is lost: each scanned record has its identifier among the
    earlier ones or in the result. *)
Lemma first_of_each_from_covers found : forall earlier p,
  In p found ->
  product_id p ∈ earlier
  \/ In (product_id p) (List.map product_id (first_of_each_from earlier found)).
Proof.
  induction found as [|q found IH]; intros earlier p; simpl; [tauto|].
  intros [->|Hp].
  - destruct (decide (product_id p ∈ earlier)); [auto|]. right. simpl. auto.
  - destruct (decide (product_id q ∈ earlier)); [apply IH, Hp|].
    destruct (IH ({[product_id q]} ∪ earlier) p Hp) as [H|H]; simpl; [|auto].
    apply elem_of_union in H as [H|H]; [|auto].
    apply elem_of_singleton in H. right. left. congruence.
Qed.

End DedupeFacts.

Section ExtractorFacts.

Context {M : Markup}.
Variable cfg : Config.
Variables site0 base_url : string.

Lemma candidate_well_formed block p :
  candidate site0 base_url block = Some p -> well_formed site0 base_url p.
Proof.
  unfold candidate.
  destruct (PyStr.is_empty (_pick_first_text block TITLE_SELECTORS)) eqn:Ht; [discriminate|].
  destruct (PyStr.is_empty (_pick_first_text block PRICE_SELECTORS)); [discriminate|].
  destruct (PyStr.is_empty (_pick_first_href block LINK_SELECTORS)) eqn:Hh; [discriminate|].
  simpl.
  destruct (parse_price _) as [price|] eqn:Hp; [|discriminate].
  apply parse_price_signed in Hp.
  destruct (PyFloat.le price f0) eqn:Hle; [discriminate|].
  intros E. injection E as <-. unfold well_formed.
  cbn [site title price_pen url product_id].
  split; [reflexivity|]. split; [exact Ht|]. split; [|split; [|reflexivity]].
  - apply nonneg_signed, signed_number in Hp.
    rewrite (le_false_gt price f0 Hp eq_refl) in Hle.
    destruct (PyFloat.gt price f0); [reflexivity|discriminate].
  - exists (_pick_first_href block LINK_SELECTORS). split; [exact Hh|reflexivity].
Qed.

(** A block lacking a title, a price text or a link, or whose price text is
    rejected or not positive, gives no record. *)
Lemma candidate_discards block :
  PyStr.is_empty (_pick_first_text block TITLE_SELECTORS) = true
  \/ PyStr.is_empty (_pick_first_text block PRICE_SELECTORS) = true
  \/ PyStr.is_empty (_pick_first_href block LINK_SELECTORS) = true
  \/ parse_price (_pick_first_text block PRICE_SELECTORS) = None
  \/ (exists price, parse_price (_pick_first_text block PRICE_SELECTORS) = Some price
                    /\ PyFloat.le price f0 = true) ->
  candidate site0 base_url block = None.
Proof.
  unfold candidate. intros [H|[H|[H|[H|(price & H & Hle)]]]]; rewrite H;
    rewrite ?orb_true_r; try reflexivity.
  - destruct (_ || _); reflexivity.
  - rewrite Hle. destruct (_ || _); reflexivity.
Qed.

Lemma scan_blocks_well_formed blocks : forall seen found,
  Forall (well_formed site0 base_url) found ->
  Forall (well_formed site0 base_url) (snd (scan_blocks cfg site0 base_url blocks seen found)).
Proof.
  induction blocks as [|b blocks IH]; intros seen found Hf; simpl; [exact Hf|].
  destruct (decide (tag_id b ∈ seen)); [apply IH, Hf|].
  destruct (candidate site0 base_url b) as [p|] eqn:Hc; [|apply IH, Hf].
  assert (Hf' : Forall (well_formed site0 base_url) (found ++ [p])).
  { apply Forall_app. split; [exact Hf|]. constructor; [|constructor].
    exact (candidate_well_formed b p Hc). }
  destruct (full cfg (found ++ [p])); [exact Hf'|apply IH, Hf'].
Qed.

Lemma scan_selectors_well_formed html selectors : forall seen found,
  Forall (well_formed site0 base_url) found ->
  Forall (well_formed site0 base_url)
         (scan_selectors cfg site0 html base_url selectors seen found).
Proof.
  induction selectors as [|sel selectors IH]; intros seen found Hf; simpl; [exact Hf|].
  pose proof (scan_blocks_well_formed (soup_select html sel) seen found Hf) as H.
  destruct (scan_blocks cfg site0 base_url (soup_select html sel) seen found) as [seen' found'].
  simpl in H. destruct (full cfg found'); [exact H|apply IH, H].
Qed.

Lemma scan_blocks_bounded blocks : forall seen found,
  Z.of_nat (List.length found) < MAX_ITEMS_PER_SITE cfg ->
  Z.of_nat (List.length (snd (scan_blocks cfg site0 base_url blocks seen found)))
  <= MAX_ITEMS_PER_SITE cfg.
Proof.
  induction blocks as [|b blocks IH]; intros seen found Hf; simpl; [lia|].
  destruct (decide (tag_id b ∈ seen)); [apply IH, Hf|].
  destruct (candidate site0 base_url b) as [p|]; [|apply IH, Hf].
  unfold full. destruct (MAX_ITEMS_PER_SITE cfg <=? _) eqn:E; simpl.
  - rewrite List.length_app. simpl. lia.
  - apply IH. lia.
Qed.

Lemma scan_selectors_bounded html selectors : forall seen found,
  Z.of_nat (List.length found) < MAX_ITEMS_PER_SITE cfg ->
  Z.of_nat (List.length (scan_selectors cfg site0 html base_url selectors seen found))
  <= MAX_ITEMS_PER_SITE cfg.
Proof.
  induction selectors as [|sel selectors IH]; intros seen found Hf; simpl; [lia|].
  pose proof (scan_blocks_bounded (soup_select html sel) seen found Hf) as H.
  destruct (scan_blocks cfg site0 base_url (soup_select html sel) seen found) as [seen' found'].
  simpl in H. unfold full. destruct (MAX_ITEMS_PER_SITE cfg <=? _) eqn:E; [exact H|].
  apply IH. lia.
Qed.

End ExtractorFacts.

Section ExtractorBound.

Context {M : Markup}.
Variable cfg : Config.
Variables site0 base_url : string.

(** Whatever the maximum, a pass of the inner loop ends at the maximum or one
    record after the length it started with. *)
Lemma scan_blocks_bounded_any blocks : forall seen found,
  Z.of_nat (List.length (snd (scan_blocks cfg site0 base_url blocks seen found)))
  <= Z.max (Z.of_nat (List.length found) + 1) (MAX_ITEMS_PER_SITE cfg).
Proof.
  induction blocks as [|b blocks IH]; intros seen found; simpl; [lia|].
  destruct (decide (tag_id b ∈ seen)); [apply IH|].
  destruct (candidate site0 base_url b) as [p|]; [|apply IH].
  unfold full. destruct (MAX_ITEMS_PER_SITE cfg <=? _) eqn:E; simpl.
  - rewrite List.length_app. simpl. lia.
  - apply Z.leb_gt in E. rewrite List.length_app in E. simpl in E.
    pose proof (IH ({[tag_id b]} ∪ seen) (found ++ [p])%list) as H.
    rewrite List.length_app in H. simpl in H. lia.
Qed.

Lemma scan_selectors_bounded_any html selectors : forall seen found,
  Z.of_nat (List.length (scan_selectors cfg site0 html base_url selectors seen found))
  <= Z.max (Z.of_nat (List.length found) + 1) (MAX_ITEMS_PER_SITE cfg).
Proof.
  destruct selectors as [|sel selectors]; intros seen found; simpl; [lia|].
  pose proof (scan_blocks_bounded_any (soup_select html sel) seen found) as H.
  destruct (scan_blocks cfg site0 base_url (soup_select html sel) seen found) as [seen' found'].
  simpl in H. unfold full. destruct (MAX_ITEMS_PER_SITE cfg <=? _) eqn:E; [exact H|].
  apply Z.leb_gt in E.
  pose proof (scan_selectors_bounded cfg site0 base_url html selectors seen' found' E). lia.
Qed.

End ExtractorBound.

(** C9, as the code has it: every record returned by [extract_products] has a
    title, a positive price and an URL resolved from a link; the result is
    the list of scanned records in which the first record of each identifier
    is kept, in order of first appearance, so its identifiers are pairwise
    distinct; and it has at most the maximum number of records when the
    maximum is one or more, at most one record when the maximum is zero or
    negative. *)
Theorem extract_products_sound {M : Markup} (cfg : Config) (site0 html base_url : string) :
  let selectors := table_get site0 SITE_PRODUCT_SELECTORS ["article"; "li"; "div"]%list in
  let scanned_records := scan_selectors cfg site0 html base_url selectors ∅ []%list in
  let result := extract_products cfg site0 html base_url in
  Forall (well_formed site0 base_url) result
  /\ result = first_of_each scanned_records
  /\ List.NoDup (List.map product_id result)
  /\ (forall p, In p scanned_records ->
                In (product_id p) (List.map product_id result))
  /\ Z.of_nat (List.length result) <= Z.max 1 (MAX_ITEMS_PER_SITE cfg).
Proof.
  intros selectors scanned_records result.
  assert (Hr : result = first_of_each scanned_records) by apply dedupe_first_of_each.
  pose proof (scan_selectors_well_formed cfg site0 base_url html selectors ∅ []
                (List.Forall_nil _)) as Hwf.
  fold scanned_records in Hwf.
  split; [|split; [exact Hr|split; [|split]]]; rewrite Hr; unfold first_of_each.
  - rewrite Forall_forall in *. intros p Hp. apply Hwf, list_elem_of_In.
    apply list_elem_of_In in Hp. apply (first_of_each_from_in _ _ _ Hp).
  - apply first_of_each_from_nodup.
  - intros p Hp. destruct (first_of_each_from_covers _ ∅ p Hp) as [H|H]; [|exact H].
    apply elem_of_empty in H. destruct H.
  - pose proof (first_of_each_from_length scanned_records ∅) as Hlen.
    pose proof (scan_selectors_bounded_any cfg site0 base_url html selectors ∅ []) as Hb.
    fold scanned_records in Hb. simpl in Hb. lia.
Qed.

(** C9 fails as stated: with a maximum of 0 the result holds one record. *)
Lemma extract_products_exceeds_zero_maximum :
  ~ Z.of_nat (List.length (Toy.listing 0)) <= MAX_ITEMS_PER_SITE (Toy.config 0).
Proof. vm_compute. intros H. apply H. reflexivity. Qed.

(** The bound is tested after a record is appended: with a maximum of 0 the
    scan still returns its first record. *)
Lemma extract_products_zero_maximum : List.length (Toy.listing 0) = 1%nat.
Proof. vm_compute. reflexivity. Qed.

(** ** The selector cascades *)

Section CascadeFacts.

Context {M : Markup}.

Lemma pick_first_text_skip block pre : forall rest,
  Forall (fun s => text_under block s = "") pre ->
  _pick_first_text block (pre ++ rest) = _pick_first_text block rest.
Proof.
  induction pre as [|s pre IH]; intros rest Hpre; [reflexivity|].
  apply Forall_cons in Hpre as [Hs Hpre]. simpl. unfold text_under in Hs.
  destruct (select_one block s) as [node|]; [rewrite Hs; simpl|]; apply IH, Hpre.
Qed.

Lemma pick_first_text_cases block selectors :
  (_pick_first_text block selectors = ""
   /\ Forall (fun s => text_under block s = "") selectors)
  \/ (exists pre s post,
        selectors = (pre ++ s :: post)%list
        /\ Forall (fun s' => text_under block s' = "") pre
        /\ text_under block s = _pick_first_text block selectors
        /\ PyStr.is_empty (text_under block s) = false).
Proof.
  induction selectors as [|s selectors IH]; [left; split; [reflexivity|constructor]|].
  simpl. unfold text_under at 1 3 4.
  destruct (select_one block s) as [node|] eqn:Hs.
  - destruct (PyStr.is_empty (get_text node)) eqn:He.
    + apply is_empty_spec in He.
      destruct IH as [[H1 H2]|(pre & s' & post & -> & Hpre & Hs' & Hne)].
      * left. split; [exact H1|]. constructor; [|exact H2].
        unfold text_under. rewrite Hs. exact He.
      * right. exists (s :: pre)%list, s', post. repeat split; auto.
        constructor; [|exact Hpre]. unfold text_under. rewrite Hs. exact He.
    + right. exists []%list, s, selectors. repeat split; auto.
      * unfold text_under. rewrite Hs. reflexivity.
      * unfold text_under. rewrite Hs. exact He.
  - destruct IH as [[H1 H2]|(pre & s' & post & -> & Hpre & Hs' & Hne)].
    + left. split; [exact H1|]. constructor; [|exact H2].
      unfold text_under. rewrite Hs. reflexivity.
    + right. exists (s :: pre)%list, s', post. repeat split; auto.
      constructor; [|exact Hpre]. unfold text_under. rewrite Hs. reflexivity.
Qed.

(** X1: [_pick_first_text] returns the text of the first selector, in list
    order, whose node has a non-empty text, whatever follows it; it returns
    the empty string exactly when no selector has one. *)
Theorem pick_first_text_first_match block :
  (forall pre s post,
      Forall (fun s' => text_under block s' = "") pre ->
      PyStr.is_empty (text_under block s) = false ->
      _pick_first_text block (pre ++ s :: post) = text_under block s)
  /\ (forall selectors,
      _pick_first_text block selectors = ""
      <-> Forall (fun s => text_under block s = "") selectors).
Proof.
  split.
  - intros pre s post Hpre Hs. rewrite (pick_first_text_skip block pre _ Hpre).
    simpl. unfold text_under in *.
    destruct (select_one block s) as [node|]; [|discriminate]. rewrite Hs. reflexivity.
  - intros selectors. split.
    + intros He.
      destruct (pick_first_text_cases block selectors)
        as [[_ H]|(pre & s & post & _ & _ & Hs & Hne)]; [exact H|].
      rewrite Hs, He in Hne. discriminate.
    + intros Hall. rewrite <- (app_nil_r selectors).
      rewrite (pick_first_text_skip block selectors [] Hall). reflexivity.
Qed.

Lemma pick_first_href_skip block pre : forall rest,
  Forall (fun s => href_under block s = None) pre ->
  _pick_first_href block (pre ++ rest) = _pick_first_href block rest.
Proof.
  induction pre as [|s pre IH]; intros rest Hpre; [reflexivity|].
  apply Forall_cons in Hpre as [Hs Hpre]. simpl. unfold href_under in Hs.
  destruct (select_one block s) as [node|]; [|apply IH, Hpre].
  destruct (get_href node) as [h|]; [|apply IH, Hpre].
  destruct (PyStr.is_empty h); [apply IH, Hpre|discriminate].
Qed.

Lemma strip_all_spaces h : PyStr.all PyText.is_space h = true -> PyText.strip h = "".
Proof. intros H. unfold PyText.strip. rewrite (lstrip_all_spaces h H). reflexivity. Qed.

(** X2: [_pick_first_href] is decided by the first selector whose node has a
    non-empty [href]: the result is that attribute stripped, whatever the
    later selectors offer, and it is empty when no selector has one.  So a
    block whose first link is made of white space only is discarded even when
    a later selector would find a usable link. *)
Theorem pick_first_href_first_decides block :
  (forall pre s post h,
      Forall (fun s' => href_under block s' = None) pre ->
      href_under block s = Some h ->
      _pick_first_href block (pre ++ s :: post) = PyText.strip h)
  /\ (forall selectors,
      Forall (fun s => href_under block s = None) selectors ->
      _pick_first_href block selectors = "")
  /\ (forall site0 base_url pre s post h,
      LINK_SELECTORS = (pre ++ s :: post)%list ->
      Forall (fun s' => href_under block s' = None) pre ->
      href_under block s = Some h ->
      PyStr.all PyText.is_space h = true ->
      candidate site0 base_url block = None).
Proof.
  assert (Hfirst : forall pre s post h,
      Forall (fun s' => href_under block s' = None) pre ->
      href_under block s = Some h ->
      _pick_first_href block (pre ++ s :: post) = PyText.strip h).
  { intros pre s post h Hpre Hs. rewrite (pick_first_href_skip block pre _ Hpre).
    simpl. unfold href_under in Hs.
    destruct (select_one block s) as [node|]; [|discriminate].
    destruct (get_href node) as [h'|]; [|discriminate].
    destruct (PyStr.is_empty h'); [discriminate|]. congruence. }
  split; [exact Hfirst|]. split.
  - intros selectors Hall. rewrite <- (app_nil_r selectors).
    rewrite (pick_first_href_skip block selectors [] Hall). reflexivity.
  - intros site0 base_url pre s post h Hsel Hpre Hs Hspace.
    unfold candidate. rewrite Hsel, (Hfirst pre s post h Hpre Hs), (strip_all_spaces h Hspace).
    simpl. rewrite !orb_true_r. reflexivity.
Qed.

End CascadeFacts.

Lemma pick_first_text_first_match_witness :
  @_pick_first_text Toy.markup (Toy.Block 1 "Nice Shoes" "S/ 99" "/p/1")
                    (["h1"] ++ "h2" :: ["h3"])%list
  = "Nice Shoes".
Proof.
  apply (proj1 (@pick_first_text_first_match Toy.markup
                  (Toy.Block 1 "Nice Shoes" "S/ 99" "/p/1")) ["h1"]%list "h2" ["h3"]%list).
  - repeat constructor.
  - reflexivity.
Defined.

Lemma pick_first_href_first_decides_witness :
  @candidate Toy.markup "siteA" "https://x" (Toy.Block 7 "Hat" "S/ 12" "  ") = None.
Proof.
  apply (proj2 (proj2 (@pick_first_href_first_decides Toy.markup
                         (Toy.Block 7 "Hat" "S/ 12" "  ")))
           "siteA" "https://x" (List.firstn 4 LINK_SELECTORS) "a[href]" []%list "  ").
  - reflexivity.
  - repeat constructor.
  - reflexivity.
  - reflexivity.
Defined.

(** ** Blocks are visited once *)

Section SeenBlocks.

Context {M : Markup}.
Variable cfg : Config.
Variables site0 base_url : string.

Lemma scan_blocks_all_seen blocks : forall seen found,
  Forall (fun b => tag_id b ∈ seen) blocks ->
  scan_blocks cfg site0 base_url blocks seen found = (seen, found).
Proof.
  induction blocks as [|b blocks IH]; intros seen found Hall; [reflexivity|].
  apply Forall_cons in Hall as [Hb Hall]. simpl.
  destruct (decide (tag_id b ∈ seen)); [apply IH, Hall|contradiction].
Qed.

Lemma scan_blocks_marks blocks : forall seen found,
  full cfg (snd (scan_blocks cfg site0 base_url blocks seen found)) = false ->
  seen ⊆ fst (scan_blocks cfg site0 base_url blocks seen found)
  /\ Forall (fun b => tag_id b ∈ fst (scan_blocks cfg site0 base_url blocks seen found)) blocks.
Proof.
  induction blocks as [|b blocks IH]; intros seen found Hfull; simpl in *;
    [split; [reflexivity|constructor]|].
  destruct (decide (tag_id b ∈ seen)) as [Hin|Hout].
  - destruct (IH seen found Hfull) as [Hsub Hall]. split; [exact Hsub|].
    constructor; [apply Hsub, Hin|exact Hall].
  - assert (Hstep : forall found',
      full cfg (snd (scan_blocks cfg site0 base_url blocks ({[tag_id b]} ∪ seen) found')) = false ->
      seen ⊆ fst (scan_blocks cfg site0 base_url blocks ({[tag_id b]} ∪ seen) found')
      /\ Forall (fun b' => tag_id b' ∈
                   fst (scan_blocks cfg site0 base_url blocks ({[tag_id b]} ∪ seen) found'))
                (b :: blocks)).
    { intros found' H. destruct (IH _ found' H) as [Hsub Hall]. split.
      - intros x Hx. apply Hsub, elem_of_union_r, Hx.
      - constructor; [|exact Hall]. apply Hsub, elem_of_union_l, elem_of_singleton. reflexivity. }
    destruct (candidate site0 base_url b) as [p|]; [|apply Hstep, Hfull].
    destruct (full cfg (found ++ [p])) eqn:E; [simpl in Hfull; congruence|].
    apply Hstep, Hfull.
Qed.

(** X3: once a pass over some blocks has ended below the item maximum, a
    pass over blocks with the same identities (the same blocks selected again
    by a later, broader selector) visits none of them: it adds no record and
    leaves the set of seen blocks as it is. *)
Theorem scan_blocks_visits_once blocks again seen found :
  let first_pass := scan_blocks cfg site0 base_url blocks seen found in
  full cfg (snd first_pass) = false ->
  (forall b, In b again -> exists b0, In b0 blocks /\ tag_id b0 = tag_id b) ->
  scan_blocks cfg site0 base_url again (fst first_pass) (snd first_pass) = first_pass.
Proof.
  intros first_pass Hfull Hsame.
  destruct (scan_blocks_marks blocks seen found Hfull) as [_ Hall].
  fold first_pass in Hall. rewrite scan_blocks_all_seen; [destruct first_pass; reflexivity|].
  apply List.Forall_forall. intros b Hb. destruct (Hsame b Hb) as (b0 & Hb0 & <-).
  rewrite List.Forall_forall in Hall. apply Hall, Hb0.
Qed.

End SeenBlocks.

Lemma scan_blocks_visits_once_witness :
  let first_pass :=
    @scan_blocks Toy.markup (Toy.config 60) "siteA" "https://x" (Toy.page "listing") ∅ []%list in
  @scan_blocks Toy.markup (Toy.config 60) "siteA" "https://x" (Toy.page "listing")
               (fst first_pass) (snd first_pass)
  = first_pass.
Proof.
  apply (@scan_blocks_visits_once Toy.markup (Toy.config 60) "siteA" "https://x"
           (Toy.page "listing") (Toy.page "listing") ∅ []%list).
  - vm_compute. reflexivity.
  - intros b Hb. exists b. split; [exact Hb|reflexivity].
Defined.

(** ** Which price texts are accepted *)

Section PriceTexts.

Lemma app_empty_r (s : string) : s ++ "" = s.
Proof.
  induction s as [|c s IH]; [reflexivity|].
  change (String c s ++ "") with (String c (s ++ "")). rewrite IH. reflexivity.
Qed.

Lemma filter_true keep s : PyStr.all keep s = true -> PyStr.filter keep s = s.
Proof.
  induction s as [|c s IH]; simpl; [reflexivity|].
  intros H. apply andb_true_iff in H as [Hc Hs]. rewrite Hc, (IH Hs). reflexivity.
Qed.

Lemma digit_is_price_char c : PyStr.is_digit c = true -> is_price_char c = true.
Proof. intros H. unfold is_price_char. rewrite H. reflexivity. Qed.

Lemma separator_not_digit c : NormalizerSpec.is_separator c = true -> PyStr.is_digit c = false.
Proof.
  unfold NormalizerSpec.is_separator. intros H. apply orb_true_iff in H as [H|H];
    apply Ascii.eqb_eq in H; subst c; reflexivity.
Qed.

Lemma digits_of_clean raw : digits_of (clean raw) = digits_of raw.
Proof.
  unfold digits_of, clean. induction raw as [|c raw IH]; simpl; [reflexivity|].
  destruct (PyStr.is_digit c) eqn:Hd.
  - rewrite (digit_is_price_char c Hd). simpl. rewrite Hd, IH. reflexivity.
  - destruct (is_price_char c); simpl; [rewrite Hd|]; exact IH.
Qed.

Lemma digits_of_app s t : digits_of (s ++ t) = digits_of s ++ digits_of t.
Proof. apply filter_app. Qed.

Lemma digits_of_replace old new s :
  PyStr.is_digit old = false -> digits_of new = "" ->
  digits_of (PyStr.replace old new s) = digits_of s.
Proof.
  intros Hold Hnew. induction s as [|c s IH]; simpl; [reflexivity|].
  destruct (Ascii.eqb c old) eqn:E.
  - apply Ascii.eqb_eq in E. subst c. rewrite digits_of_app, Hnew, IH.
    unfold digits_of at 2. simpl. rewrite Hold. reflexivity.
  - unfold digits_of in *. simpl. rewrite IH. reflexivity.
Qed.

Lemma digits_of_disambiguate s : digits_of (disambiguate s) = digits_of s.
Proof.
  unfold disambiguate.
  destruct (PyStr.contains "," s && PyStr.contains "." s).
  - destruct (PyStr.rfind "." s <? PyStr.rfind "," s);
      rewrite !digits_of_replace; reflexivity.
  - destruct (PyStr.count "," s =? 1); [apply digits_of_replace; reflexivity|].
    destruct (1 <? PyStr.count "." s); [apply digits_of_replace; reflexivity|reflexivity].
Qed.

Lemma partition_recompose c s :
  s = fst (PyStr.partition c s)
      ++ match snd (PyStr.partition c s) with Some t => String c t | None => "" end.
Proof.
  induction s as [|a s IH]; simpl; [reflexivity|].
  destruct (Ascii.eqb a c) eqn:E.
  - apply Ascii.eqb_eq in E. subst a. reflexivity.
  - destruct (PyStr.partition c s) as [h r]. cbn [fst snd] in *.
    change (String a s
            = String a (h ++ match r with Some t => String c t | None => "" end)).
    f_equal. exact IH.
Qed.

(** A text accepted by [float] has a digit. *)
Lemma of_string_has_digit s f : PyFloat.of_string s = Some f -> has_digit s = true.
Proof.
  unfold PyFloat.of_string. pose proof (partition_recompose "." s) as Hs.
  destruct (PyStr.partition "." s) as [ip r]. simpl in Hs.
  destruct (PyStr.all PyStr.is_digit ip) eqn:Hi; simpl; [|discriminate].
  set (fp := match r with Some t => t | None => "" end).
  destruct (PyStr.all PyStr.is_digit fp) eqn:Hf; cbn [andb]; [|discriminate].
  destruct (PyStr.is_empty (ip ++ fp)) eqn:He; cbn [negb]; [discriminate|]. intros _.
  assert (Hr : digits_of (match r with Some t => String "." t | None => "" end) = fp).
  { subst fp. destruct r as [t|]; [|reflexivity].
    change (digits_of (String "." t)) with (digits_of t). apply filter_true, Hf. }
  unfold has_digit. rewrite Hs, digits_of_app, Hr. unfold digits_of.
  rewrite (filter_true _ _ Hi), He. reflexivity.
Qed.

Lemma count_filter keep c s :
  keep c = true -> PyStr.count c (PyStr.filter keep s) = PyStr.count c s.
Proof.
  intros Hk. induction s as [|a s IH]; simpl; [reflexivity|].
  destruct (Ascii.eqb a c) eqn:E.
  - apply Ascii.eqb_eq in E. subst a. rewrite Hk. simpl. rewrite Ascii.eqb_refl, IH. reflexivity.
  - destruct (keep a); simpl; [rewrite E|]; rewrite IH; reflexivity.
Qed.

Lemma contains_count c s : PyStr.contains c s = (0 <? PyStr.count c s).
Proof.
  induction s as [|a s IH]; simpl; [reflexivity|].
  pose proof (count_nonneg c s).
  destruct (Ascii.eqb a c); simpl; [symmetry; apply Z.ltb_lt; lia|exact IH].
Qed.

Lemma all_digit_count c s :
  PyStr.is_digit c = false -> PyStr.all PyStr.is_digit s = true -> PyStr.count c s = 0.
Proof.
  intros Hc. induction s as [|a s IH]; simpl; [reflexivity|].
  intros H. apply andb_true_iff in H as [Ha Hs].
  destruct (Ascii.eqb a c) eqn:E; [apply Ascii.eqb_eq in E; congruence|]. rewrite (IH Hs). reflexivity.
Qed.

Lemma count_app c s t : PyStr.count c (s ++ t) = PyStr.count c s + PyStr.count c t.
Proof. induction s as [|a s IH]; simpl; [reflexivity|]. rewrite IH. lia. Qed.

Lemma count_comma_not_digit s :
  0 < PyStr.count "," s -> PyStr.all PyStr.is_digit s = false.
Proof.
  induction s as [|a s IH]; simpl; [lia|].
  destruct (Ascii.eqb a ",") eqn:E.
  - apply Ascii.eqb_eq in E. subst a. reflexivity.
  - intros H. rewrite IH by lia. apply andb_false_r.
Qed.

(** X4: a text without any digit is rejected by [parse_price], whatever else
    it holds. *)
Theorem parse_price_needs_digit raw :
  has_digit raw = false -> parse_price raw = None.
Proof.
  intros Hd. destruct (parse_price raw) as [f|] eqn:E; [|reflexivity].
  unfold parse_price in E. destruct (PyStr.is_empty (clean raw)); [discriminate|].
  apply of_string_has_digit in E. unfold has_digit in *.
  rewrite digits_of_disambiguate, digits_of_clean in E. congruence.
Qed.

(** X5: a text with two or more commas and no period is rejected by
    [parse_price]: commas alone are never read as thousands separators. *)
Theorem parse_price_rejects_comma_groups raw :
  2 <= PyStr.count "," raw -> PyStr.contains "." raw = false -> parse_price raw = None.
Proof.
  intros Hc Hp. unfold parse_price.
  assert (Hc' : PyStr.count "," (clean raw) = PyStr.count "," raw)
    by (apply count_filter; reflexivity).
  assert (Hp' : PyStr.count "." (clean raw) = 0).
  { unfold clean. rewrite count_filter by reflexivity.
    rewrite contains_count in Hp. apply Z.ltb_ge in Hp. pose proof (count_nonneg "." raw). lia. }
  destruct (PyStr.is_empty (clean raw)); [reflexivity|].
  unfold disambiguate. rewrite (contains_count "." (clean raw)), Hp', andb_false_r, Hc'.
  destruct (Z.eqb_spec (PyStr.count "," raw) 1) as [E|_]; [lia|]. simpl.
  unfold PyFloat.of_string.
  rewrite (partition_absent "." (clean raw))
    by (rewrite contains_count, Hp'; reflexivity).
  rewrite (count_comma_not_digit (clean raw)) by lia. reflexivity.
Qed.

End PriceTexts.

Lemma parse_price_needs_digit_witness : parse_price "S/ --,-- (agotado)" = None.
Proof. apply parse_price_needs_digit. reflexivity. Defined.

Lemma parse_price_rejects_comma_groups_witness : parse_price "S/ 1,234,567" = None.
Proof. apply parse_price_rejects_comma_groups; [vm_compute; discriminate|reflexivity]. Defined.

Section SingleSeparator.

Lemma separator_cases c :
  NormalizerSpec.is_separator c = true -> c = ","%char \/ c = "."%char.
Proof.
  unfold NormalizerSpec.is_separator. intros H.
  apply orb_true_iff in H as [H|H]; apply Ascii.eqb_eq in H; auto.
Qed.

Lemma price_char_cases c :
  is_price_char c = true ->
  (PyStr.is_digit c = true /\ NormalizerSpec.is_separator c = false)
  \/ (PyStr.is_digit c = false /\ NormalizerSpec.is_separator c = true).
Proof.
  unfold is_price_char, NormalizerSpec.is_separator.
  destruct (PyStr.is_digit c) eqn:Hd; simpl.
  - intros _. left. split; [reflexivity|].
    destruct (Ascii.eqb c ",") eqn:E1; [apply Ascii.eqb_eq in E1; subst c; discriminate|].
    destruct (Ascii.eqb c ".") eqn:E2; [apply Ascii.eqb_eq in E2; subst c; discriminate|].
    reflexivity.
  - intros H. right. split; [reflexivity|exact H].
Qed.

Lemma separator_counts c :
  NormalizerSpec.is_separator c = true ->
  (if Ascii.eqb c "," then 1 else 0) + (if Ascii.eqb c "." then 1 else 0) = 1.
Proof. intros H. destruct (separator_cases c H); subst c; reflexivity. Qed.

Lemma non_separator_counts c :
  NormalizerSpec.is_separator c = false ->
  Ascii.eqb c "," = false /\ Ascii.eqb c "." = false.
Proof. unfold NormalizerSpec.is_separator. intros H. apply orb_false_iff in H. exact H. Qed.

Lemma no_separator_digits s :
  PyStr.all is_price_char s = true ->
  PyStr.count "," s + PyStr.count "." s <= 0 ->
  PyStr.all PyStr.is_digit s = true.
Proof.
  induction s as [|c s IH]; simpl; [reflexivity|].
  intros H Hc. apply andb_true_iff in H as [Hp Hs].
  pose proof (count_nonneg "," s). pose proof (count_nonneg "." s).
  destruct (price_char_cases c Hp) as [[Hd Hn]|[Hd Hy]].
  - destruct (non_separator_counts c Hn) as [E1 E2]. rewrite E1, E2 in Hc.
    rewrite Hd, IH; [reflexivity|exact Hs|lia].
  - pose proof (separator_counts c Hy). lia.
Qed.

(** A cleaned text with at most one separator is a run of digits, or two runs
    of digits around one separator. *)
Lemma single_separator_shape s :
  PyStr.all is_price_char s = true ->
  PyStr.count "," s + PyStr.count "." s <= 1 ->
  PyStr.all PyStr.is_digit s = true
  \/ exists a sep b,
       s = a ++ String sep b
       /\ PyStr.all PyStr.is_digit a = true /\ PyStr.all PyStr.is_digit b = true
       /\ NormalizerSpec.is_separator sep = true.
Proof.
  induction s as [|c s IH]; simpl; [left; reflexivity|].
  intros H Hc. apply andb_true_iff in H as [Hp Hs].
  pose proof (count_nonneg "," s). pose proof (count_nonneg "." s).
  destruct (price_char_cases c Hp) as [[Hd Hn]|[Hd Hy]].
  - destruct (non_separator_counts c Hn) as [E1 E2]. rewrite E1, E2 in Hc.
    destruct (IH Hs ltac:(lia)) as [Hall|(a & sep & b & -> & Ha & Hb & Hsep)].
    + left. rewrite Hd, Hall. reflexivity.
    + right. exists (String c a), sep, b. repeat split; auto.
      simpl. rewrite Hd, Ha. reflexivity.
  - right. exists "", c, s. repeat split; auto.
    apply no_separator_digits; [exact Hs|]. pose proof (separator_counts c Hy). lia.
Qed.

Lemma replace_absent old new s : PyStr.count old s = 0 -> PyStr.replace old new s = s.
Proof.
  induction s as [|c s IH]; simpl; [reflexivity|].
  pose proof (count_nonneg old s) as Hn.
  destruct (Ascii.eqb c old); [lia|]. intros H. rewrite IH by lia. reflexivity.
Qed.

Lemma str_app_assoc (a b c : string) : (a ++ b) ++ c = a ++ b ++ c.
Proof.
  induction a as [|x a IH]; [reflexivity|].
  change ((String x a ++ b) ++ c) with (String x ((a ++ b) ++ c)).
  rewrite IH. reflexivity.
Qed.

Lemma replace_app old new s t :
  PyStr.replace old new (s ++ t) = PyStr.replace old new s ++ PyStr.replace old new t.
Proof.
  induction s as [|c s IH]; [reflexivity|].
  change (String c s ++ t) with (String c (s ++ t)). simpl.
  destruct (Ascii.eqb c old); rewrite IH; [rewrite str_app_assoc|]; reflexivity.
Qed.

Lemma after_separator_digits a sep b :
  PyStr.all PyStr.is_digit a = true -> NormalizerSpec.is_separator sep = true ->
  after_separator (a ++ String sep b) = b.
Proof.
  intros Ha Hsep. induction a as [|c a IH]; simpl.
  - change ("" ++ String sep b) with (String sep b). simpl. rewrite Hsep. reflexivity.
  - simpl in Ha. apply andb_true_iff in Ha as [Hc Ha].
    change (String c a ++ String sep b) with (String c (a ++ String sep b)). simpl.
    destruct (NormalizerSpec.is_separator c) eqn:E; [|exact (IH Ha)].
    apply separator_not_digit in E. congruence.
Qed.

Lemma after_separator_none s :
  PyStr.all PyStr.is_digit s = true -> after_separator s = "".
Proof.
  induction s as [|c s IH]; simpl; [reflexivity|].
  intros H. apply andb_true_iff in H as [Hc Hs].
  destruct (NormalizerSpec.is_separator c) eqn:E; [|exact (IH Hs)].
  apply separator_not_digit in E. congruence.
Qed.

Lemma after_separator_clean raw :
  digits_of (after_separator (clean raw)) = digits_of (after_separator raw).
Proof.
  unfold clean. induction raw as [|c raw IH]; simpl; [reflexivity|].
  destruct (is_price_char c) eqn:Hp.
  - simpl. destruct (NormalizerSpec.is_separator c); [apply digits_of_clean|exact IH].
  - assert (Hn : NormalizerSpec.is_separator c = false).
    { unfold is_price_char in Hp. unfold NormalizerSpec.is_separator.
      destruct (PyStr.is_digit c); simpl in Hp; [discriminate|exact Hp]. }
    rewrite Hn. exact IH.
Qed.

Lemma of_string_point a b :
  PyStr.all PyStr.is_digit a = true -> PyStr.all PyStr.is_digit b = true ->
  PyStr.is_empty (a ++ b) = false ->
  PyFloat.of_string (a ++ String "." b)
  = Some (of_ratio (digits_value (a ++ b) 0) (10 ^ Z.of_nat (String.length b))).
Proof.
  intros Ha Hb He. unfold PyFloat.of_string.
  rewrite partition_at_first
    by (rewrite contains_count, (all_digit_count "." a eq_refl Ha); reflexivity).
  rewrite Ha, Hb, He. reflexivity.
Qed.

Lemma of_string_digits s :
  PyStr.all PyStr.is_digit s = true -> PyStr.is_empty s = false ->
  PyFloat.of_string s = Some (of_ratio (digits_value s 0) 1).
Proof.
  intros Hs He. unfold PyFloat.of_string.
  rewrite partition_absent
    by (rewrite contains_count, (all_digit_count "." s eq_refl Hs); reflexivity).
  rewrite app_empty_r, Hs, He. reflexivity.
Qed.

(** The result of [parse_price] on a cleaned text with at most one separator. *)
Lemma disambiguate_single_separator s :
  PyStr.all is_price_char s = true ->
  PyStr.count "," s + PyStr.count "." s <= 1 ->
  has_digit s = true ->
  PyFloat.of_string (disambiguate s)
  = Some (of_ratio (digits_value (digits_of s) 0)
                   (10 ^ Z.of_nat (String.length (digits_of (after_separator s))))).
Proof.
  intros Hp Hc Hd.
  destruct (single_separator_shape s Hp Hc) as [Hall|(a & sep & b & -> & Ha & Hb & Hsep)].
  - assert (E1 := all_digit_count "," s eq_refl Hall).
    assert (E2 := all_digit_count "." s eq_refl Hall).
    unfold disambiguate. rewrite !contains_count, E1, E2. simpl.
    unfold has_digit, digits_of in *. rewrite (filter_true _ _ Hall) in *.
    rewrite (after_separator_none s Hall). simpl.
    apply of_string_digits; [exact Hall|]. destruct (PyStr.is_empty s); [discriminate|reflexivity].
  - assert (Hdig : digits_of (a ++ String sep b) = a ++ b).
    { rewrite digits_of_app. unfold digits_of. simpl.
      rewrite (separator_not_digit sep Hsep), (filter_true _ _ Ha), (filter_true _ _ Hb).
      reflexivity. }
    assert (He : PyStr.is_empty (a ++ b) = false).
    { unfold has_digit in Hd. rewrite Hdig in Hd.
      destruct (PyStr.is_empty (a ++ b)); [discriminate|reflexivity]. }
    rewrite Hdig, (after_separator_digits a sep b Ha Hsep).
    unfold digits_of at 1. rewrite (filter_true _ _ Hb).
    assert (Ca := all_digit_count "," a eq_refl Ha).
    assert (Cb := all_digit_count "," b eq_refl Hb).
    assert (Pa := all_digit_count "." a eq_refl Ha).
    assert (Pb := all_digit_count "." b eq_refl Hb).
    unfold disambiguate. rewrite !contains_count, !count_app. simpl PyStr.count.
    rewrite Ca, Cb, Pa, Pb.
    destruct (separator_cases sep Hsep); subst sep; simpl.
    + rewrite replace_app, (replace_absent "," "." a Ca). simpl.
      rewrite (replace_absent "," "." b Cb).
      change ("." ++ b) with (String "." b). apply of_string_point; assumption.
    + apply of_string_point; assumption.
Qed.

End SingleSeparator.

(** X6: a text with at least one digit and at most one comma or period is
    always accepted by [parse_price], and the lone separator is a decimal
    point: the value is the number its digits write, divided by ten to the
    number of digits after the separator, rounded to binary64. *)
Theorem parse_price_single_separator raw :
  has_digit raw = true ->
  PyStr.count "," raw + PyStr.count "." raw <= 1 ->
  parse_price raw
  = Some (of_ratio (digits_value (digits_of raw) 0)
                   (10 ^ Z.of_nat (String.length (digits_of (after_separator raw))))).
Proof.
  intros Hd Hc. unfold parse_price.
  assert (Hd' : has_digit (clean raw) = true)
    by (unfold has_digit in *; rewrite digits_of_clean; exact Hd).
  destruct (PyStr.is_empty (clean raw)) eqn:He.
  - apply is_empty_spec in He. rewrite He in Hd'. discriminate.
  - rewrite <- digits_of_clean, <- after_separator_clean.
    apply disambiguate_single_separator; [apply filter_all| |exact Hd'].
    unfold clean. rewrite !count_filter by reflexivity. exact Hc.
Qed.

Lemma parse_price_single_separator_witness :
  parse_price "S/ 1,234" = Some (of_ratio 1234 1000)
  /\ parse_price "S/ 1,234" = parse_price "1.234".
Proof.
  split.
  - apply (parse_price_single_separator "S/ 1,234"); [reflexivity|vm_compute; discriminate].
  - vm_compute. reflexivity.
Defined.

(** ** The shape of identifiers and ledger keys *)

Section KeyFacts.

Lemma land_15_range x : 0 <= Z.land x 15 < 16.
Proof.
  change 15 with (Z.ones 4). rewrite Z.land_ones by lia.
  apply Z.mod_pos_bound. lia.
Qed.

Lemma hex_digit_is_hex n : 0 <= n < 16 -> is_hex (Sha256.hex_digit n) = true.
Proof.
  intros H.
  assert (Hall : List.forallb (fun k => is_hex (Sha256.hex_digit (Z.of_nat k)))
                              (List.seq 0 16) = true) by reflexivity.
  rewrite List.forallb_forall in Hall.
  rewrite <- (Z2Nat.id n) by lia. apply Hall, List.in_seq. lia.
Qed.

Lemma hex_word_is_hex x : PyStr.all is_hex (Sha256.hex_word x) = true.
Proof.
  unfold Sha256.hex_word. cbn [List.fold_right PyStr.all].
  rewrite !hex_digit_is_hex by apply land_15_range. reflexivity.
Qed.

Lemma all_prefix p n : forall s, PyStr.all p s = true -> PyStr.all p (PyText.prefix n s) = true.
Proof.
  induction n as [|n IH]; intros [|c s]; simpl; auto.
  intros H. apply andb_true_iff in H as [Hc Hs]. rewrite Hc, (IH s Hs). reflexivity.
Qed.

(** X7: the identifier made by [stable_id] is written with the characters
    [0-9a-f] only, for every site, title and URL. *)
Theorem stable_id_is_hex site0 title0 url0 :
  PyStr.all is_hex (stable_id site0 title0 url0) = true.
Proof.
  unfold stable_id, Sha256.hexdigest. apply all_prefix.
  rewrite !all_app, !hex_word_is_hex. reflexivity.
Qed.

(** Texts without the character [>]. *)
Lemma no_gt_app s t :
  PyStr.contains ">" (s ++ t) = PyStr.contains ">" s || PyStr.contains ">" t.
Proof.
  induction s as [|c s IH]; [reflexivity|].
  change (String c s ++ t) with (String c (s ++ t)). simpl. rewrite IH, orb_assoc. reflexivity.
Qed.

Lemma no_gt_digits s : PyStr.all PyStr.is_digit s = true -> PyStr.contains ">" s = false.
Proof.
  induction s as [|c s IH]; simpl; [reflexivity|].
  intros H. apply andb_true_iff in H as [Hc Hs]. rewrite (IH Hs), orb_false_r.
  destruct (Ascii.eqb c ">") eqn:E; [|reflexivity].
  apply Ascii.eqb_eq in E. subst c. discriminate.
Qed.

Lemma uint_digits u : PyStr.all PyStr.is_digit (NilEmpty.string_of_uint u) = true.
Proof. induction u; simpl; auto. Qed.

Lemma decimal_digits n : PyStr.all PyStr.is_digit (PyFormat.decimal n) = true.
Proof.
  unfold PyFormat.decimal, NilZero.string_of_uint.
  destruct (N.to_uint (Z.to_N n)); try reflexivity; apply uint_digits.
Qed.

Lemma repeat_digits n : PyStr.all PyStr.is_digit (PyStr.repeat "0" n) = true.
Proof. induction n as [|n IH]; simpl; auto. Qed.

Lemma all_substring p s : forall n m,
  PyStr.all p s = true -> PyStr.all p (String.substring n m s) = true.
Proof.
  induction s as [|c s IH]; intros n m H.
  - destruct n, m; reflexivity.
  - simpl in H. apply andb_true_iff in H as [Hc Hs].
    destruct n as [|n]; [destruct m as [|m]; simpl; [reflexivity|]|simpl; apply IH, Hs].
    rewrite Hc. apply IH, Hs.
Qed.

Lemma with_point_no_gt d n : PyStr.contains ">" (PyFormat.with_point d n) = false.
Proof.
  unfold PyFormat.with_point.
  set (padded := PyStr.repeat "0" _ ++ PyFormat.decimal n).
  assert (Hp : PyStr.all PyStr.is_digit padded = true)
    by (subst padded; rewrite all_app, repeat_digits, decimal_digits; reflexivity).
  destruct (Nat.eqb d 0); [apply no_gt_digits, Hp|].
  rewrite no_gt_app, no_gt_app.
  rewrite (no_gt_digits (PyText.prefix _ padded)) by (apply all_prefix, Hp).
  rewrite (no_gt_digits (String.substring _ d padded)) by (apply all_substring, Hp).
  reflexivity.
Qed.

Lemma fixed_no_gt d x : PyStr.contains ">" (PyFormat.fixed d x) = false.
Proof.
  destruct x as [s|s| |s m e]; simpl; try reflexivity;
    try (destruct s; reflexivity);
    rewrite no_gt_app, with_point_no_gt; destruct s; reflexivity.
Qed.

Lemma app_inj_length (a a' b b' : string) :
  String.length a = String.length a' -> a ++ b = a' ++ b' -> a = a' /\ b = b'.
Proof.
  revert a'. induction a as [|c a IH]; intros [|c' a'] Hl E; simpl in Hl; try discriminate.
  - split; [reflexivity|exact E].
  - change (String c (a ++ b) = String c' (a' ++ b')) in E. injection E as -> E.
    destruct (IH a' ltac:(lia) E) as [-> ->]. split; reflexivity.
Qed.

Lemma split_at_first c (a a' b b' : string) :
  PyStr.contains c a = false -> PyStr.contains c a' = false ->
  a ++ String c b = a' ++ String c b' -> a = a' /\ b = b'.
Proof.
  revert a'. induction a as [|x a IH]; intros [|x' a'] Ha Ha' E.
  - change (String c b = String c b') in E. injection E as ->. split; reflexivity.
  - change (String c b = String x' (a' ++ String c b')) in E. injection E as -> _.
    simpl in Ha'. rewrite Ascii.eqb_refl in Ha'. discriminate.
  - change (String x (a ++ String c b) = String c b') in E. injection E as -> _.
    simpl in Ha. rewrite Ascii.eqb_refl in Ha. discriminate.
  - change (String x (a ++ String c b) = String x' (a' ++ String c b')) in E.
    injection E as -> E. simpl in Ha, Ha'.
    apply orb_false_iff in Ha as [_ Ha]. apply orb_false_iff in Ha' as [_ Ha'].
    destruct (IH a' Ha Ha' E) as [-> ->]. split; reflexivity.
Qed.

End KeyFacts.

(** X8: the ledger key determines the transition: two keys built from
    identifiers of the same length (as the 24-character identifiers of the
    extractor are) are equal only when the identifiers are equal and the old
    and the new price read the same at two decimal places. *)
Theorem alert_key_injective p1 p2 old1 old2 :
  String.length (product_id p1) = String.length (product_id p2) ->
  alert_key p1 old1 = alert_key p2 old2 ->
  product_id p1 = product_id p2
  /\ PyFormat.fixed 2 old1 = PyFormat.fixed 2 old2
  /\ PyFormat.fixed 2 (price_pen p1) = PyFormat.fixed 2 (price_pen p2).
Proof.
  intros Hlen E. unfold alert_key in E.
  destruct (app_inj_length _ _ _ _ Hlen E) as [Hid E1]. split; [exact Hid|].
  change (String ":" (PyFormat.fixed 2 old1
                      ++ String "-" (String ">" (PyFormat.fixed 2 (price_pen p1))))
          = String ":" (PyFormat.fixed 2 old2
                        ++ String "-" (String ">" (PyFormat.fixed 2 (price_pen p2))))) in E1.
  injection E1 as E1.
  assert (E2 : (PyFormat.fixed 2 old1 ++ "-") ++ String ">" (PyFormat.fixed 2 (price_pen p1))
               = (PyFormat.fixed 2 old2 ++ "-") ++ String ">" (PyFormat.fixed 2 (price_pen p2)))
    by (rewrite !str_app_assoc; exact E1).
  apply split_at_first in E2 as [Ea Eb];
    [|rewrite no_gt_app, fixed_no_gt; reflexivity|rewrite no_gt_app, fixed_no_gt; reflexivity].
  split; [|exact Eb].
  apply app_inj_length in Ea as [Ea _]; [exact Ea|].
  apply (f_equal String.length) in Ea. rewrite !length_app in Ea. simpl in Ea. lia.
Qed.

Lemma alert_key_injective_witness :
  product_id (Scenario.item "x" f40)
  = product_id {| site := "hm"; product_id := "x"; title := "other"; price_pen := f40;
                  url := "https://y" |}
  /\ PyFormat.fixed 2 f100 = PyFormat.fixed 2 (S754_finite false 7036874417766401 (-46))
  /\ PyFormat.fixed 2 f40 = PyFormat.fixed 2 f40.
Proof.
  apply (alert_key_injective (Scenario.item "x" f40)
           {| site := "hm"; product_id := "x"; title := "other"; price_pen := f40;
              url := "https://y" |}
           f100 (S754_finite false 7036874417766401 (-46))).
  - reflexivity.
  - vm_compute. reflexivity.
Defined.

(** ** Runs, site by site *)

Section RunFacts.

Variable cfg : Config.

Lemma observe_site_tagged w s found : forall mem,
  List.fold_left (observe_tagged cfg) (List.map (fun p => (s, time_at w s, p)) found) mem
  = List.fold_left (observe cfg s (time_at w s)) found mem.
Proof. induction found as [|p found IH]; intros mem; simpl; [reflexivity|apply IH]. Qed.

Lemma visit_all_tagged w sites : forall acc,
  fst (List.fold_left (visit cfg w) sites acc)
  = List.fold_left (observe_tagged cfg) (observations_of w sites) (fst acc).
Proof.
  induction sites as [|[s u] sites IH]; intros [mem lg]; [reflexivity|].
  simpl List.fold_left at 1. rewrite IH.
  unfold observations_of, answered_of. simpl List.flat_map.
  destruct (scrape w s u) as [found|]; simpl; [|reflexivity].
  rewrite List.fold_left_app, observe_site_tagged. reflexivity.
Qed.

Lemma scanned_tagged w state :
  scanned cfg w state
  = List.fold_left (observe_tagged cfg) (observations w) (initial_memory state).
Proof. unfold scanned. rewrite visit_all_tagged. reflexivity. Qed.

Lemma observations_none w sites :
  (forall s u, In (s, u) sites -> scrape w s u = None) -> observations_of w sites = [].
Proof.
  induction sites as [|[s u] sites IH]; intros H; [reflexivity|].
  unfold observations_of, answered_of in *. simpl.
  rewrite (H s u) by (left; reflexivity). simpl. apply IH.
  intros s' u' Hin. apply H. right. exact Hin.
Qed.

End RunFacts.

(** X9: the memory a run has built when it reaches the send phase is the one
    obtained by observing, in order, the products of the sites whose page
    could be fetched; a site whose fetch fails contributes nothing, so when
    every fetch fails the tracked products, the ledger and the (empty) list of
    alerts are those the run started with. *)
Theorem failed_fetches_are_skipped cfg w state :
  scanned cfg w state
  = List.fold_left (observe_tagged cfg) (observations w) (initial_memory state)
  /\ ((forall s u, In (s, u) SITES -> scrape w s u = None) ->
      scanned cfg w state = initial_memory state).
Proof.
  split; [apply scanned_tagged|].
  intros H. rewrite scanned_tagged. unfold observations.
  rewrite (observations_none w SITES H). reflexivity.
Qed.

Lemma failed_fetches_are_skipped_witness :
  scanned default_config (Scenario.world 1000 Runs.pair Scenario.always) Runs.state0
  = List.fold_left (observe_tagged default_config)
      (observations (Scenario.world 1000 Runs.pair Scenario.always))
      (initial_memory Runs.state0)
  /\ scanned default_config
       {| telegram_token := Some "token"; telegram_chat_id := Some "chat";
          scrape := fun _ _ => None; time_at := fun _ => 0; end_time := 1;
          deliver := fun _ _ => true |} Runs.state0
     = initial_memory Runs.state0.
Proof.
  split.
  - apply (proj1 (failed_fetches_are_skipped default_config _ Runs.state0)).
  - apply (proj2 (failed_fetches_are_skipped default_config _ Runs.state0)).
    intros s u _. reflexivity.
Defined.

(** ** The send phase, for any sender *)

Lemma send_all_ok w pending : forall n sent lg sent' lg',
  send_all w n pending sent lg = (true, sent', lg') ->
  sent' = (sent ++ pending)%list
  /\ lg' = (lg ++ List.repeat LogAlertSent (List.length pending))%list.
Proof.
  induction pending as [|a rest IH]; intros n sent lg sent' lg' H; simpl in *.
  - injection H as <- <-. rewrite !app_nil_r. split; reflexivity.
  - destruct (deliver w n a); [|discriminate].
    destruct (IH _ _ _ _ _ H) as [-> ->]. rewrite <- !app_assoc. split; reflexivity.
Qed.

Lemma firstn_slice_to {A} k cap (l : list A) :
  0 <= cap -> List.firstn k (slice_to cap l) = List.firstn (Nat.min k (Z.to_nat cap)) l.
Proof.
  intros H. unfold slice_to. destruct (0 <=? cap) eqn:E; [|lia].
  apply List.firstn_firstn.
Qed.

(** X10: whatever the sender does, a run with a non-negative cap hands it a
    prefix of the accepted alerts, in their order and without skipping any,
    and never more than the cap. *)
Theorem sends_are_a_capped_prefix cfg w state :
  0 <= MAX_ALERTS_PER_RUN cfg ->
  (exists k, attempted (monitor cfg w state) = List.firstn k (alerts (scanned cfg w state)))
  /\ Z.of_nat (List.length (attempted (monitor cfg w state))) <= MAX_ALERTS_PER_RUN cfg.
Proof.
  intros Hcap. unfold monitor, scanned.
  destruct (missing (telegram_token w) || missing (telegram_chat_id w)).
  - simpl. split; [exists 0%nat; reflexivity|lia].
  - destruct (List.fold_left (visit cfg w) SITES _) as [mem lg]. cbn [fst].
    destruct (send_all_prefix w (slice_to (MAX_ALERTS_PER_RUN cfg) (alerts mem)) 0%nat [] lg)
      as [k Hk].
    destruct (send_all w 0 _ [] lg) as [[ok sent] lg']. cbn [fst snd] in Hk. subst sent.
    assert (Hatt : attempted (if ok
        then {| outcome := Completed;
                attempted := [] ++ List.firstn k (slice_to (MAX_ALERTS_PER_RUN cfg) (alerts mem));
                saved := Some {| products := known_products mem; alerts_sent := ledger mem;
                                 last_run := Some (end_time w) |};
                log := lg' ++ [LogFinished (Z.of_nat (List.length (alerts mem)))
                                 (Z.min (Z.of_nat (List.length (alerts mem)))
                                        (MAX_ALERTS_PER_RUN cfg))] |}
        else {| outcome := RaisedBySend;
                attempted := [] ++ List.firstn k (slice_to (MAX_ALERTS_PER_RUN cfg) (alerts mem));
                saved := None; log := lg' |})
      = List.firstn (Nat.min k (Z.to_nat (MAX_ALERTS_PER_RUN cfg))) (alerts mem)).
    { destruct ok; simpl; apply firstn_slice_to, Hcap. }
    rewrite Hatt. split; [eexists; reflexivity|].
    rewrite List.length_firstn. lia.
Qed.

Lemma sends_are_a_capped_prefix_witness :
  Z.of_nat (List.length (attempted Runs.capped_third_send_fails)) <= 20.
Proof.
  apply (proj2 (sends_are_a_capped_prefix (Scenario.with_cap 20)
                  (Scenario.world 1000 Runs.many (Scenario.all_but 2))
                  (Scenario.tracking f100 Runs.many) ltac:(cbn; lia))).
Defined.

Lemma send_all_delivered w pending : forall n sent lg sent' lg',
  send_all w n pending sent lg = (true, sent', lg') ->
  forall i alert, List.nth_error pending i = Some alert -> deliver w (n + i) alert = true.
Proof.
  induction pending as [|a rest IH]; intros n sent lg sent' lg' H i alert Hi; simpl in *.
  - destruct i; discriminate.
  - destruct (deliver w n a) eqn:Hd; [|discriminate].
    destruct i as [|i]; simpl in Hi.
    + injection Hi as <-. rewrite Nat.add_0_r. exact Hd.
    + rewrite Nat.add_succ_r. apply (IH (S n) _ _ _ _ H i alert Hi).
Qed.

Lemma send_all_refused w pending : forall n sent lg sent' lg',
  send_all w n pending sent lg = (false, sent', lg') ->
  exists before alert,
    sent' = (sent ++ before ++ [alert])%list
    /\ deliver w (n + List.length before) alert = false.
Proof.
  induction pending as [|a rest IH]; intros n sent lg sent' lg' H; simpl in *; [discriminate|].
  destruct (deliver w n a) eqn:Hd.
  - destruct (IH _ _ _ _ _ H) as (before & alert & -> & Hf).
    exists (a :: before)%list, alert. split; [rewrite <- app_assoc; reflexivity|].
    simpl. rewrite Nat.add_succ_r. exact Hf.
  - injection H as <- <-. exists []%list, a. split; [reflexivity|].
    simpl. rewrite Nat.add_0_r. exact Hd.
Qed.

(** X11: a run that completes has handed to the sender every accepted alert
    under the cap, each delivery succeeded, and it has saved the tracked
    products and a ledger holding one new entry for each accepted alert, sent
    or not, with the end time as [last_run]; with a non-negative cap its last
    log line reports the number of accepted alerts and the number sent. *)
Theorem completed_run_accounting cfg w state :
  outcome (monitor cfg w state) = Completed ->
  let accepted := alerts (scanned cfg w state) in
  attempted (monitor cfg w state) = slice_to (MAX_ALERTS_PER_RUN cfg) accepted
  /\ (forall i alert, List.nth_error (attempted (monitor cfg w state)) i = Some alert ->
                      deliver w i alert = true)
  /\ saved (monitor cfg w state)
     = Some {| products := known_products (scanned cfg w state);
               alerts_sent := ledger (scanned cfg w state);
               last_run := Some (end_time w) |}
  /\ size (ledger (scanned cfg w state))
     = (size (alerts_sent state) + List.length accepted)%nat
  /\ (0 <= MAX_ALERTS_PER_RUN cfg ->
      List.last (log (monitor cfg w state)) LogAlertSent
      = LogFinished (Z.of_nat (List.length accepted))
                    (Z.of_nat (List.length (attempted (monitor cfg w state))))).
Proof.
  intros Hc accepted.
  pose proof (visit_all_counts cfg w SITES
    ({| known_products := products state; ledger := alerts_sent state; alerts := [] |},
     []%list)) as Hcount.
  subst accepted. unfold monitor, scanned in *.
  destruct (missing (telegram_token w) || missing (telegram_chat_id w)); [discriminate|].
  destruct (List.fold_left (visit cfg w) SITES _) as [mem lg]. cbn [fst] in *.
  destruct (send_all w 0 _ [] lg) as [[ok sent] lg'] eqn:Hsend.
  destruct ok; [|discriminate]. cbn [attempted saved log].
  destruct (send_all_ok _ _ _ _ _ _ _ Hsend) as [-> ->].
  split; [reflexivity|]. split; [|split; [reflexivity|split]].
  - intros i alert Hi. apply (send_all_delivered _ _ _ _ _ _ _ Hsend i alert Hi).
  - simpl in Hcount. lia.
  - intros Hcap. rewrite List.last_last. f_equal. simpl.
    symmetry. apply length_slice_to, Hcap.
Qed.

Lemma completed_run_accounting_witness :
  attempted Runs.capped
  = slice_to 20 (alerts (scanned (Scenario.with_cap 20)
                           (Scenario.world 1000 Runs.many Scenario.always)
                           (Scenario.tracking f100 Runs.many))).
Proof.
  apply (proj1 (completed_run_accounting (Scenario.with_cap 20)
                  (Scenario.world 1000 Runs.many Scenario.always)
                  (Scenario.tracking f100 Runs.many) ltac:(vm_compute; reflexivity))).
Defined.

(** X12: a run writes the state once, at its end, or not at all: with a
    credential that is unset or empty it raises before fetching, sending or
    logging anything; it saves nothing exactly when it does not complete, and
    then the state on disk is the one it started from; and it is interrupted
    in the send phase only by a delivery that failed, the last one attempted. *)
Theorem run_is_all_or_nothing cfg w state :
  (missing (telegram_token w) = true \/ missing (telegram_chat_id w) = true ->
   monitor cfg w state
   = {| outcome := RaisedRuntimeError; attempted := []; saved := None; log := [] |})
  /\ (saved (monitor cfg w state) = None <-> outcome (monitor cfg w state) <> Completed)
  /\ (outcome (monitor cfg w state) <> Completed ->
      persisted state (monitor cfg w state) = state)
  /\ (outcome (monitor cfg w state) = RaisedBySend ->
      exists before alert,
        attempted (monitor cfg w state) = (before ++ [alert])%list
        /\ deliver w (List.length before) alert = false).
Proof.
  split; [|split; [|split]].
  - intros H. unfold monitor.
    destruct (missing (telegram_token w)), (missing (telegram_chat_id w));
      try reflexivity; destruct H; discriminate.
  - destruct (monitor_persisted cfg w state) as [[Ho Hs]|[Ho Hs]]; rewrite Hs;
      split; intros H; congruence.
  - intros Hn. unfold persisted.
    destruct (monitor_persisted cfg w state) as [[Ho _]|[_ ->]]; [contradiction|reflexivity].
  - unfold monitor.
    destruct (missing (telegram_token w) || missing (telegram_chat_id w)); [discriminate|].
    destruct (List.fold_left (visit cfg w) SITES _) as [mem lg].
    destruct (send_all w 0 _ [] lg) as [[ok sent] lg'] eqn:Hsend.
    destruct ok; [discriminate|]. intros _. cbn [attempted].
    destruct (send_all_refused _ _ _ _ _ _ _ Hsend) as (before & alert & -> & Hf).
    exists before, alert. split; [reflexivity|exact Hf].
Qed.

Lemma run_is_all_or_nothing_witness :
  persisted (Scenario.tracking f100 Runs.pair) Runs.first_send_fails
  = Scenario.tracking f100 Runs.pair.
Proof.
  apply (proj1 (proj2 (proj2 (run_is_all_or_nothing default_config
           (Scenario.world 1000 Runs.pair (Scenario.all_but 0))
           (Scenario.tracking f100 Runs.pair))))).
  vm_compute. discriminate.
Defined.

(** ** Running again on unchanged pages *)

Section Rerun.

Lemma ge_refl x : is_nan x = false -> PyFloat.ge x x = true.
Proof.
  unfold PyFloat.ge, SFleb.
  destruct x as [s|s| |s m e]; simpl; intros H; try discriminate; try reflexivity.
  - destruct s; reflexivity.
  - rewrite Z.compare_refl, Pos.compare_cont_refl. destruct s; reflexivity.
Qed.

(** An observation at the recorded price raises nothing. *)
Lemma observe_same_price cfg s now mem p entry :
  known_products mem !! product_id p = Some entry ->
  last_price entry = price_pen p ->
  is_nan (price_pen p) = false ->
  observe cfg s now mem p
  = {| known_products := <[ product_id p := tracked_entry s now p ]> (known_products mem);
       ledger := ledger mem; alerts := alerts mem |}.
Proof.
  intros Hk Hp Hn. unfold observe. rewrite Hk. unfold detect.
  rewrite Hp, (ge_refl _ Hn), orb_true_r. reflexivity.
Qed.

Lemma same_identifier_same_product (found : list Product) p q :
  List.NoDup (List.map product_id found) ->
  In p found -> In q found -> product_id p = product_id q -> p = q.
Proof.
  induction found as [|x found IH]; simpl; [tauto|].
  intros Hnd Hp Hq E. apply List.NoDup_cons_iff in Hnd as [Hx Hnd].
  destruct Hp as [->|Hp], Hq as [->|Hq]; auto.
  - exfalso. apply Hx. rewrite E. apply List.in_map, Hq.
  - exfalso. apply Hx. rewrite <- E. apply List.in_map, Hp.
Qed.

(** After observing products with pairwise distinct identifiers, the known
    products record the price of each. *)
Lemma tracks_after cfg (obs : list (string * Z * Product)) :
  List.NoDup (List.map product_id (List.map snd obs)) ->
  forall mem,
    tracks (known_products (List.fold_left (observe_tagged cfg) obs mem)) (List.map snd obs).
Proof.
  induction obs as [|o obs IH] using List.rev_ind; intros Hnd mem p Hp; [destruct Hp|].
  rewrite List.fold_left_app. simpl. unfold observe_tagged at 1. rewrite observe_known.
  rewrite List.map_app in Hp. rewrite 2!List.map_app in Hnd. simpl in Hnd, Hp.
  apply List.NoDup_remove in Hnd as [Hnd Hfresh]. rewrite app_nil_r in Hnd, Hfresh.
  apply List.in_app_iff in Hp as [Hp|[<-|[]]].
  - rewrite lookup_insert_ne; [apply (IH Hnd mem p Hp)|].
    intros E. apply Hfresh. rewrite E. apply List.in_map, Hp.
  - rewrite lookup_insert_eq. eexists. split; reflexivity.
Qed.

(** Observing again products whose prices are recorded raises no alert, adds
    nothing to the ledger and keeps their prices recorded. *)
Lemma quiet_observations cfg (found : list Product) (obs : list (string * Z * Product)) :
  List.NoDup (List.map product_id found) ->
  Forall (fun p => is_nan (price_pen p) = false) found ->
  (forall o, In o obs -> In (snd o) found) ->
  forall mem,
    tracks (known_products mem) found ->
    alerts (List.fold_left (observe_tagged cfg) obs mem) = alerts mem
    /\ ledger (List.fold_left (observe_tagged cfg) obs mem) = ledger mem
    /\ tracks (known_products (List.fold_left (observe_tagged cfg) obs mem)) found.
Proof.
  intros Hnd Hnum. induction obs as [|[[s now] p] obs IH]; intros Hin mem Htr; [auto|].
  simpl List.fold_left. unfold observe_tagged at 2 4 6. cbn [fst snd].
  assert (Hp : In p found) by (apply (Hin (s, now, p)); left; reflexivity).
  destruct (Htr p Hp) as (entry & Hk & Hprice).
  rewrite List.Forall_forall in Hnum.
  rewrite (observe_same_price cfg s now mem p entry Hk Hprice (Hnum p Hp)).
  set (mem' := {| known_products := <[ product_id p := tracked_entry s now p ]>
                                      (known_products mem);
                  ledger := ledger mem; alerts := alerts mem |}).
  assert (Htr' : tracks (known_products mem') found).
  { intros q Hq. subst mem'. cbn [known_products].
    destruct (decide (product_id p = product_id q)) as [E|E].
    - rewrite E, lookup_insert_eq.
      rewrite (same_identifier_same_product found p q Hnd Hp Hq E).
      eexists. split; reflexivity.
    - rewrite lookup_insert_ne by exact E. apply Htr, Hq. }
  destruct (IH (fun o Ho => Hin o (or_intror Ho)) mem' Htr') as (Ha & Hl & Ht).
  split; [exact Ha|]. split; [exact Hl|exact Ht].
Qed.

Lemma observed_of_sites w sites :
  List.map snd (observations_of w sites)
  = List.flat_map (fun entry => match scrape w (fst entry) (snd entry) with
                                | Some found => found
                                | None => []
                                end) sites.
Proof.
  induction sites as [|[s u] sites IH]; [reflexivity|].
  unfold observations_of, answered_of in *. simpl.
  destruct (scrape w s u) as [found|]; simpl; [|exact IH].
  rewrite List.map_app, IH. f_equal.
  rewrite List.map_map. simpl. apply List.map_id.
Qed.

Lemma observed_same_pages w w' :
  (forall s u, scrape w' s u = scrape w s u) -> observed w' = observed w.
Proof.
  intros H. unfold observed, observations. rewrite !observed_of_sites.
  apply List.flat_map_ext. intros [s u]. simpl. rewrite H. reflexivity.
Qed.

Lemma slice_to_nil {A} cap : slice_to cap ([] : list A) = [].
Proof. unfold slice_to. destruct (0 <=? cap); apply List.firstn_nil. Qed.

End Rerun.

(** X13: when a run has completed on pages whose products have pairwise
    distinct identifiers and numeric prices, the next run on the same pages,
    at any time and with any threshold or cap, accepts no alert, sends
    nothing and adds nothing to the ledger. *)
Theorem rerun_is_quiet cfg cfg' w w' state :
  outcome (monitor cfg w state) = Completed ->
  (forall s u, scrape w' s u = scrape w s u) ->
  List.NoDup (List.map product_id (observed w)) ->
  Forall (fun p => is_nan (price_pen p) = false) (observed w) ->
  let state1 := persisted state (monitor cfg w state) in
  alerts (scanned cfg' w' state1) = []
  /\ ledger (scanned cfg' w' state1) = alerts_sent state1
  /\ attempted (monitor cfg' w' state1) = [].
Proof.
  intros Hc Hsame Hnd Hnum state1.
  assert (Htr : tracks (products state1) (observed w)).
  { subst state1. unfold persisted.
    destruct (monitor_persisted cfg w state) as [[_ ->]|[Hn _]]; [|contradiction].
    cbn [products]. rewrite scanned_tagged. apply tracks_after. exact Hnd. }
  destruct (quiet_observations cfg' (observed w) (observations w') Hnd Hnum
              ltac:(intros o Ho; rewrite <- (observed_same_pages w w' Hsame);
                    apply List.in_map, Ho)
              (initial_memory state1) Htr) as (Ha & Hl & _).
  rewrite <- scanned_tagged in Ha, Hl. cbn [initial_memory alerts ledger] in Ha, Hl.
  split; [exact Ha|]. split; [exact Hl|].
  revert Ha. unfold monitor, scanned.
  destruct (missing (telegram_token w') || missing (telegram_chat_id w')); [reflexivity|].
  destruct (List.fold_left (visit cfg' w') SITES _) as [mem lg]. cbn [fst].
  intros ->. rewrite slice_to_nil. reflexivity.
Qed.

Lemma rerun_is_quiet_witness :
  attempted (monitor (Scenario.with_cap 5)
               (Scenario.world 2000 [Scenario.item "x" f40] Scenario.always)
               Runs.state1) = [].
Proof.
  apply (rerun_is_quiet default_config (Scenario.with_cap 5)
           (Scenario.world 1000 [Scenario.item "x" f40] Scenario.always)
           (Scenario.world 2000 [Scenario.item "x" f40] Scenario.always) Runs.state0).
  - vm_compute. reflexivity.
  - intros s u. reflexivity.
  - vm_compute. repeat constructor. intros [].
  - vm_compute. repeat constructor.
Defined.

(** ** Products seen for the first time *)

Lemma unseen_observations cfg (obs : list (string * Z * Product)) :
  List.NoDup (List.map product_id (List.map snd obs)) ->
  forall mem,
    (forall o, In o obs -> known_products mem !! product_id (snd o) = None) ->
    alerts (List.fold_left (observe_tagged cfg) obs mem) = alerts mem
    /\ ledger (List.fold_left (observe_tagged cfg) obs mem) = ledger mem.
Proof.
  induction obs as [|[[s now] p] obs IH]; intros Hnd mem Hnew; [auto|].
  simpl in Hnd. apply List.NoDup_cons_iff in Hnd as [Hp Hnd].
  simpl List.fold_left. unfold observe_tagged at 2 4. cbn [fst snd].
  assert (Hobs : observe cfg s now mem p
                 = {| known_products := <[ product_id p := tracked_entry s now p ]>
                                           (known_products mem);
                      ledger := ledger mem; alerts := alerts mem |}).
  { pose proof (Hnew (s, now, p) (or_introl eq_refl)) as Hk. cbn [snd] in Hk.
    unfold observe. rewrite Hk. reflexivity. }
  rewrite Hobs.
  destruct (IH Hnd {| known_products := <[ product_id p := tracked_entry s now p ]>
                                           (known_products mem);
                      ledger := ledger mem; alerts := alerts mem |}) as [Ha Hl].
  - intros o Ho. cbn [known_products]. rewrite lookup_insert_ne.
    + apply Hnew. right. exact Ho.
    + intros E. apply Hp. rewrite E. apply List.in_map, List.in_map, Ho.
  - split; [exact Ha|exact Hl].
Qed.

(** X14: a run in which every observed product is new to the tracked state
    (as in the first run, on an empty state), the identifiers being pairwise
    distinct, accepts no alert, sends nothing and leaves the ledger as it
    was. *)
Theorem first_observations_are_quiet cfg w state :
  List.NoDup (List.map product_id (observed w)) ->
  (forall p, In p (observed w) -> products state !! product_id p = None) ->
  alerts (scanned cfg w state) = []
  /\ ledger (scanned cfg w state) = alerts_sent state
  /\ attempted (monitor cfg w state) = [].
Proof.
  intros Hnd Hnew.
  destruct (unseen_observations cfg (observations w) Hnd (initial_memory state)) as [Ha Hl].
  { intros o Ho. apply Hnew. apply List.in_map, Ho. }
  rewrite <- scanned_tagged in Ha, Hl. cbn [initial_memory alerts ledger] in Ha, Hl.
  split; [exact Ha|]. split; [exact Hl|].
  revert Ha. unfold monitor, scanned.
  destruct (missing (telegram_token w) || missing (telegram_chat_id w)); [reflexivity|].
  destruct (List.fold_left (visit cfg w) SITES _) as [mem lg]. cbn [fst].
  intros ->. rewrite slice_to_nil. reflexivity.
Qed.

Lemma first_observations_are_quiet_witness :
  attempted (monitor default_config
               (Scenario.world 1000 Runs.pair Scenario.always) empty_state) = [].
Proof.
  apply (first_observations_are_quiet default_config
           (Scenario.world 1000 Runs.pair Scenario.always) empty_state).
  - vm_compute. repeat constructor; simpl; intuition discriminate.
  - intros p _. reflexivity.
Defined.

(** ** The range of the Numeric Normalizer *)

Section RoundingRange.

Lemma digits2_size p : digits2_pos p = Pos.size p.
Proof. induction p as [p IH|p IH|]; simpl; [rewrite IH| rewrite IH|]; reflexivity. Qed.

Lemma Zdigits2_log2 m : 0 < m -> Zdigits2 m = Z.log2 m + 1.
Proof.
  destruct m as [|p|p]; try lia. intros _.
  destruct p as [p|p|]; simpl; rewrite ?digits2_size, ?Pos2Z.inj_succ; lia.
Qed.

Lemma Zdigits2_nonneg m : 0 <= Zdigits2 m.
Proof. destruct m; simpl; lia. Qed.

Lemma Zdigits2_le m k : 0 <= m -> 0 <= k -> m < 2 ^ k -> Zdigits2 m <= k.
Proof.
  intros Hm Hk H. destruct (Z.eq_dec m 0) as [->|Hn]; [simpl; lia|].
  rewrite Zdigits2_log2 by lia. apply Z.log2_lt_pow2 in H; lia.
Qed.

Lemma Zdigits2_ge m k : 0 <= k -> 2 ^ k <= m -> k + 1 <= Zdigits2 m.
Proof.
  intros Hk H. assert (0 < m) by (pose proof (Z.pow_pos_nonneg 2 k); lia).
  rewrite Zdigits2_log2 by lia. apply Z.log2_le_pow2 in H; lia.
Qed.

Lemma Zdigits2_positive m : 0 <= m -> 0 < Zdigits2 m -> exists p, m = Zpos p.
Proof. destruct m as [|p|p]; simpl; try lia. eauto. Qed.

Lemma Zdigits2_mono a b : 0 <= a <= b -> Zdigits2 a <= Zdigits2 b.
Proof.
  intros H. destruct (Z.eq_dec a 0) as [->|Ha]; [apply Zdigits2_nonneg|].
  rewrite !Zdigits2_log2 by lia. pose proof (Z.log2_le_mono a b). lia.
Qed.

Lemma Zdigits2_succ a : 0 <= a -> Zdigits2 (a + 1) <= Zdigits2 a + 1.
Proof.
  intros H. destruct (Z.eq_dec a 0) as [->|Ha]; [simpl; lia|].
  rewrite !Zdigits2_log2 by lia. pose proof (Z.log2_succ_le a). unfold Z.succ in *. lia.
Qed.

Lemma shr_1_digits mrs :
  0 <= shr_m mrs ->
  Zdigits2 (shr_m (shr_1 mrs)) = Z.max 0 (Zdigits2 (shr_m mrs) - 1).
Proof.
  destruct mrs as [m r s]; simpl.
  destruct m as [|[q|q|]|q]; simpl; rewrite ?Pos2Z.inj_succ; lia.
Qed.

Lemma iter_shr_1_digits n : forall mrs,
  0 <= shr_m mrs ->
  0 <= shr_m (SpecFloat.iter_pos shr_1 n mrs)
  /\ Zdigits2 (shr_m (SpecFloat.iter_pos shr_1 n mrs))
     = Z.max 0 (Zdigits2 (shr_m mrs) - Zpos n).
Proof.
  induction n as [n IH|n IH|]; intros mrs H; simpl.
  - pose proof (shr_1_nonneg mrs H) as H1. pose proof (shr_1_digits mrs H) as D1.
    destruct (IH (shr_1 mrs) H1) as [H2 D2].
    destruct (IH _ H2) as [H3 D3]. split; [exact H3|]. lia.
  - destruct (IH mrs H) as [H2 D2]. destruct (IH _ H2) as [H3 D3].
    split; [exact H3|]. lia.
  - split; [apply shr_1_nonneg, H|apply shr_1_digits, H].
Qed.

(** The exponent and the number of digits after the shift to the format. *)
Lemma shr_fexp_digits m ex l :
  0 <= m ->
  let r := shr_fexp prec emax m ex l in
  snd r = Z.max ex (fexp prec emax (Zdigits2 m + ex))
  /\ 0 <= shr_m (fst r)
  /\ Zdigits2 (shr_m (fst r)) = Z.max 0 (Zdigits2 m - (snd r - ex)).
Proof.
  intros H r. subst r. unfold shr_fexp, shr.
  pose proof (Zdigits2_nonneg m) as Hd.
  destruct (fexp prec emax (Zdigits2 m + ex) - ex) as [|n|n] eqn:E; simpl.
  - rewrite shr_m_of_loc. repeat split; try lia.
  - destruct (iter_shr_1_digits n (shr_record_of_loc m l)) as [H1 D1];
      [rewrite shr_m_of_loc; exact H|].
    rewrite shr_m_of_loc in D1. repeat split; try lia.
  - rewrite shr_m_of_loc. repeat split; try lia.
Qed.

Lemma round_nearest_even_digits m l :
  0 <= m ->
  m <= round_nearest_even m l
  /\ Zdigits2 m <= Zdigits2 (round_nearest_even m l) <= Zdigits2 m + 1.
Proof.
  intros H. pose proof (Zdigits2_succ m H) as Hs.
  pose proof (Zdigits2_mono m (m + 1) ltac:(lia)) as Hm.
  destruct l as [|[]]; simpl; try destruct (Z.even m); lia.
Qed.

(** A mantissa and exponent below [2^1023] round to a finite value. *)
Lemma binary_round_aux_finite sx mx ex lx :
  0 <= mx -> ex <= 971 -> Zdigits2 mx + ex <= 1023 ->
  is_finite (binary_round_aux prec emax sx mx ex lx) = true.
Proof.
  intros Hm He Hd. unfold binary_round_aux.
  destruct (shr_fexp_digits mx ex lx Hm) as (E1 & N1 & D1).
  destruct (shr_fexp prec emax mx ex lx) as [mrs' e1]. cbn [fst snd] in *.
  destruct (round_nearest_even_digits (shr_m mrs') (loc_of_shr_record mrs') N1) as [R1 R2].
  set (m2 := round_nearest_even (shr_m mrs') (loc_of_shr_record mrs')) in *.
  destruct (shr_fexp_digits m2 e1 loc_Exact ltac:(lia)) as (E2 & N2 & D2).
  destruct (shr_fexp prec emax m2 e1 loc_Exact) as [mrs'' e2]. cbn [fst snd] in *.
  assert (He2 : e2 <= 971).
  { unfold fexp, emin, prec, emax in *. pose proof (Zdigits2_nonneg mx). lia. }
  destruct (shr_m mrs'') as [|m|m]; [reflexivity| |lia].
  unfold prec, emax. replace (e2 <=? 1024 - 53) with true; [reflexivity|].
  symmetry. apply Z.leb_le. lia.
Qed.

(** A mantissa of and exponent from [2^1024] on round to an infinity. *)
Lemma binary_round_aux_overflow sx mx ex lx :
  0 <= mx -> ex <= 0 -> 1025 <= Zdigits2 mx + ex ->
  binary_round_aux prec emax sx mx ex lx = S754_infinity sx.
Proof.
  intros Hm He Hd. unfold binary_round_aux.
  destruct (shr_fexp_digits mx ex lx Hm) as (E1 & N1 & D1).
  destruct (shr_fexp prec emax mx ex lx) as [mrs' e1]. cbn [fst snd] in *.
  destruct (round_nearest_even_digits (shr_m mrs') (loc_of_shr_record mrs') N1) as [R1 R2].
  set (m2 := round_nearest_even (shr_m mrs') (loc_of_shr_record mrs')) in *.
  destruct (shr_fexp_digits m2 e1 loc_Exact ltac:(lia)) as (E2 & N2 & D2).
  destruct (shr_fexp prec emax m2 e1 loc_Exact) as [mrs'' e2]. cbn [fst snd] in *.
  assert (He2 : 972 <= e2 /\ 0 < Zdigits2 (shr_m mrs'')).
  { unfold fexp, emin, prec, emax in *. lia. }
  destruct He2 as [He2 Hpos].
  destruct (Zdigits2_positive _ N2 Hpos) as [m ->].
  unfold prec, emax. replace (e2 <=? 1024 - 53) with false; [reflexivity|].
  symmetry. apply Z.leb_gt. lia.
Qed.


Lemma div_core_quotient n d :
  0 < n -> 0 < d ->
  let r := SFdiv_core_binary prec emax n 0 d 0 in
  snd (fst r) <= 0 /\ fst (fst r) = (n * 2 ^ (- snd (fst r))) / d.
Proof.
  intros Hn Hd r. subst r. unfold SFdiv_core_binary.
  set (e' := Z.min (fexp prec emax (Zdigits2 n + 0 - (Zdigits2 d + 0))) (0 - 0)).
  assert (He : e' <= 0) by (subst e'; lia).
  assert (Hm : match 0 - 0 - e' with
               | Z0 => n
               | Zpos _ => Z.shiftl n (0 - 0 - e')
               | Zneg _ => 0
               end = n * 2 ^ (- e')).
  { replace (0 - 0 - e') with (- e') by lia.
    destruct (- e') as [|s|s] eqn:E; [lia| |lia].
    apply Z.shiftl_mul_pow2. lia. }
  rewrite Hm.
  destruct (Z.div_eucl (n * 2 ^ (- e')) d) as [q rem] eqn:Ediv. cbn [fst snd].
  split; [exact He|]. unfold Z.div. rewrite Ediv. reflexivity.
Qed.

Lemma of_ratio_finite n d :
  0 <= n -> 0 < d -> n < 2 ^ 1023 * d -> is_finite (of_ratio n d) = true.
Proof.
  intros Hn Hd Hlt. unfold of_ratio.
  destruct n as [|n|n]; [reflexivity| |lia].
  destruct (div_core_quotient (Z.pos n) d ltac:(lia) Hd) as [He Hq].
  pose proof (div_core_nonneg prec emax (Z.pos n) 0 d 0 ltac:(lia) Hd) as Hq0.
  destruct (SFdiv_core_binary prec emax (Z.pos n) 0 d 0) as [[q e'] l]. cbn [fst snd] in *.
  apply binary_round_aux_finite; [exact Hq0|lia|].
  assert (Hb : q < 2 ^ (1023 - e')).
  { rewrite Hq. apply Z.div_lt_upper_bound; [exact Hd|].
    replace (1023 - e') with (1023 + - e') by lia.
    rewrite Z.pow_add_r by lia.
    pose proof (Z.pow_pos_nonneg 2 (- e') ltac:(lia) ltac:(lia)). nia. }
  pose proof (Zdigits2_le q (1023 - e') Hq0 ltac:(lia) Hb). lia.
Qed.

Lemma of_ratio_overflow n d :
  0 < d -> 2 ^ 1024 * d <= n -> of_ratio n d = S754_infinity false.
Proof.
  intros Hd Hge. unfold of_ratio.
  assert (Hn : 0 < n) by (pose proof (Z.pow_pos_nonneg 2 1024 ltac:(lia) ltac:(lia)); nia).
  destruct n as [|n|n]; try lia.
  destruct (div_core_quotient (Z.pos n) d ltac:(lia) Hd) as [He Hq].
  pose proof (div_core_nonneg prec emax (Z.pos n) 0 d 0 ltac:(lia) Hd) as Hq0.
  destruct (SFdiv_core_binary prec emax (Z.pos n) 0 d 0) as [[q e'] l]. cbn [fst snd] in *.
  apply binary_round_aux_overflow; [exact Hq0|exact He|].
  assert (Hb : 2 ^ (1024 - e') <= q).
  { rewrite Hq. apply Z.div_le_lower_bound; [exact Hd|].
    replace (1024 - e') with (1024 + - e') by lia.
    rewrite Z.pow_add_r by lia.
    pose proof (Z.pow_pos_nonneg 2 (- e') ltac:(lia) ltac:(lia)). nia. }
  pose proof (Zdigits2_ge q (1024 - e') ltac:(lia) Hb). lia.
Qed.

End RoundingRange.

(** The value of an accepted text. *)
Section Amounts.

Lemma digits_value_bounds s : forall acc,
  PyStr.all PyStr.is_digit s = true -> 0 <= acc ->
  acc * 10 ^ Z.of_nat (String.length s) <= digits_value s acc
  < (acc + 1) * 10 ^ Z.of_nat (String.length s).
Proof.
  induction s as [|c s IH]; intros acc Hall Hacc; simpl String.length; simpl digits_value.
  - simpl. lia.
  - simpl in Hall. apply andb_true_iff in Hall as [Hc Hs].
    assert (Hd : 0 <= PyStr.digit_value c <= 9)
      by (unfold PyStr.is_digit, PyStr.digit_value in *; lia).
    specialize (IH (10 * acc + PyStr.digit_value c) Hs ltac:(lia)).
    rewrite Nat2Z.inj_succ, Z.pow_succ_r by lia.
    pose proof (Z.pow_pos_nonneg 10 (Z.of_nat (String.length s)) ltac:(lia) ltac:(lia)).
    nia.
Qed.

Lemma of_string_value s f :
  PyFloat.of_string s = Some f ->
  f = of_ratio (digits_value (digits_of s) 0)
               (10 ^ Z.of_nat (String.length
                                 match snd (PyStr.partition "." s) with
                                 | Some t => t
                                 | None => ""
                                 end)).
Proof.
  unfold PyFloat.of_string. pose proof (partition_recompose "." s) as Hs.
  destruct (PyStr.partition "." s) as [ip r]. cbn [fst snd] in *.
  set (fp := match r with Some t => t | None => "" end).
  destruct (PyStr.all PyStr.is_digit ip) eqn:Hi; cbn [andb]; [|discriminate].
  destruct (PyStr.all PyStr.is_digit fp) eqn:Hf; cbn [andb]; [|discriminate].
  destruct (negb (PyStr.is_empty (ip ++ fp))); [|discriminate].
  intros [= <-].
  assert (Hr : digits_of (match r with Some t => String "." t | None => "" end) = fp).
  { subst fp. destruct r as [t|]; [|reflexivity].
    change (digits_of (String "." t)) with (digits_of t). apply filter_true, Hf. }
  assert (Hdig : digits_of s = ip ++ fp).
  { rewrite Hs, digits_of_app, Hr. unfold digits_of.
    rewrite (filter_true _ _ Hi). reflexivity. }
  rewrite Hdig. reflexivity.
Qed.

Lemma parse_price_value raw f :
  parse_price raw = Some f ->
  f = of_ratio (amount_digits raw) (10 ^ Z.of_nat (decimals raw)).
Proof.
  unfold parse_price. destruct (PyStr.is_empty (clean raw)); [discriminate|].
  intros H. apply of_string_value in H.
  rewrite digits_of_disambiguate, digits_of_clean in H. exact H.
Qed.

Lemma amount_digits_bounds raw :
  0 <= amount_digits raw < 10 ^ Z.of_nat (String.length (digits_of raw)).
Proof.
  unfold amount_digits.
  pose proof (digits_value_bounds (digits_of raw) 0 (filter_all _ raw) ltac:(lia)). lia.
Qed.

Lemma all_digit_price_chars s :
  PyStr.all PyStr.is_digit s = true -> PyStr.all is_price_char s = true.
Proof.
  induction s as [|c s IH]; simpl; [reflexivity|].
  intros H. apply andb_true_iff in H as [Hc Hs].
  rewrite (digit_is_price_char c Hc), (IH Hs). reflexivity.
Qed.

End Amounts.

(** C4, as the code has it: [parse_price] rejects or returns a number whose
    sign bit is clear, never a negative number or a NaN: the binary64 value
    nearest to the amount its digits write.  The value is finite whenever the
    amount is below [2^1023], so for every text of at most 307 digits, and it
    is [+inf], not a rejection, whenever the amount is [2^1024] or more. *)
Theorem parse_price_never_negative :
  (forall raw,
     match parse_price raw with
     | None => True
     | Some f =>
         nonneg f = true /\ PyFloat.lt f f0 = false /\ is_nan f = false
         /\ f = of_ratio (amount_digits raw) (10 ^ Z.of_nat (decimals raw))
         /\ (amount_digits raw < 2 ^ 1023 * 10 ^ Z.of_nat (decimals raw) ->
             is_finite f = true)
         /\ ((String.length (digits_of raw) <= 307)%nat -> is_finite f = true)
         /\ (2 ^ 1024 * 10 ^ Z.of_nat (decimals raw) <= amount_digits raw ->
             f = S754_infinity false)
     end)
  /\ (forall raw,
        PyStr.all PyStr.is_digit raw = true -> 2 ^ 1024 <= digits_value raw 0 ->
        parse_price raw = Some (S754_infinity false)).
Proof.
  split.
  - intros raw. destruct (parse_price raw) as [f|] eqn:E; [|exact I].
    pose proof (parse_price_signed raw f E) as Hs.
    pose proof (parse_price_value raw f E) as Hv.
    pose proof (amount_digits_bounds raw) as Hb.
    assert (Hk : 0 < 10 ^ Z.of_nat (decimals raw)) by (apply Z.pow_pos_nonneg; lia).
    split; [exact Hs|]. split; [apply nonneg_not_below_zero, Hs|].
    split; [apply nonneg_signed in Hs; destruct f; simpl in *; tauto|].
    split; [exact Hv|]. split; [|split].
    + intros H. rewrite Hv. apply of_ratio_finite; lia.
    + intros H. rewrite Hv. apply of_ratio_finite; [lia|lia|].
      assert (H307 : 10 ^ Z.of_nat (String.length (digits_of raw)) <= 10 ^ 307)
        by (apply Z.pow_le_mono_r; lia).
      assert (Hc : 10 ^ 307 < 2 ^ 1023) by (apply Z.ltb_lt; vm_compute; reflexivity).
      nia.
    + intros H. rewrite Hv. apply of_ratio_overflow; lia.
  - intros raw Hd Hbig. unfold parse_price, clean.
    rewrite (filter_true _ _ (all_digit_price_chars raw Hd)).
    destruct (PyStr.is_empty raw) eqn:He.
    { apply is_empty_spec in He. subst raw. simpl in Hbig.
      pose proof (Z.pow_pos_nonneg 2 1024 ltac:(lia) ltac:(lia)). lia. }
    assert (Hdis : disambiguate raw = raw).
    { unfold disambiguate.
      rewrite !contains_count, (all_digit_count "," raw eq_refl Hd),
        (all_digit_count "." raw eq_refl Hd). reflexivity. }
    rewrite Hdis, (of_string_digits raw Hd He). f_equal.
    apply of_ratio_overflow; lia.
Qed.

Lemma parse_price_never_negative_witness :
  parse_price huge_price_text = Some (S754_infinity false).
Proof.
  apply (proj2 parse_price_never_negative huge_price_text).
  - vm_compute. reflexivity.
  - apply Z.leb_le. vm_compute. reflexivity.
Defined.
